(** * Credential access control, redaction and transfer

    A shallow embedding of [CredentialsService]
    (packages/cli/src/credentials/credentials.service.ts) and the
    properties its specification states about it.

    - Decrypted credential payloads are JSON data: [JsValue].
    - Code that can throw returns a [Result].
    - The sharing table, whose primary key is the pair
      (credentialsId, projectId), is a finite map from that pair to
      the role column.
    - Repositories and services the class receives through its
      constructor are parameters of the functions that call them. *)

From stdpp Require Import gmap strings list pretty.

Local Open Scope string_scope.
Local Open Scope list_scope.

(** ** Outcomes of code that can throw *)

Inductive Error :=
| TypeError
| UnknownCredentialTypeError (typeName : string)
| NotFoundError (credentialId : string)
| BadRequestError
| DecryptionError
| UniqueConstraintError.

(** [Diverged] is the outcome of a recursion that was cut off before
    it came back: the only recursion of the class that is not
    structural is the walk along [extends]. *)
Inductive Result (A : Type) :=
| Ok (a : A)
| Throw (e : Error)
| Diverged.

Arguments Ok {A} a.
Arguments Throw {A} e.
Arguments Diverged {A}.

Global Instance Result_bind : MBind Result := λ A B k c,
  match c with
  | Ok a => k a
  | Throw e => Throw e
  | Diverged => Diverged
  end.

Global Instance Result_ret : MRet Result := λ A a, Ok a.

Fixpoint mapM {A B} (f : A → Result B) (l : list A) : Result (list B) :=
  match l with
  | [] => Ok []
  | a :: rest => b ← f a ; bs ← mapM f rest ; Ok (b :: bs)
  end.

(** [f] over the elements of a list and their indices, the first
    element having index [i]. *)
Fixpoint mapFrom {A B} (f : nat → A → B) (i : nat) (l : list A) : list B :=
  match l with
  | [] => []
  | a :: rest => f i a :: mapFrom f (S i) rest
  end.

(** ** JSON data *)

(** Payloads are plain data, as [JSON.parse] builds it: the
    properties of an object are its own, a number is carried as it
    is. *)

#[local] Set Warnings "-register-all".

Inductive JsValue :=
| JUndefined
| JNull
| JBool (b : bool)
| JNum (n : Z)
| JStr (s : string)
| JArr (items : list JsValue)
| JObj (props : list (string * JsValue)).

(** An object is the list of its own properties in key order. *)
Abbreviation JObject := (list (string * JsValue)).

(** [typeof v === 'object' && v !== null] *)
Definition isObject (v : JsValue) : bool :=
  match v with
  | JArr _ | JObj _ => true
  | _ => false
  end.

(** Truthiness, as [if (v)] tests it. *)
Definition truthy (v : JsValue) : bool :=
  match v with
  | JUndefined | JNull => false
  | JBool b => b
  | JNum n => negb (n =? 0)%Z
  | JStr s => negb (String.eqb s "")
  | JArr _ | JObj _ => true
  end.

Fixpoint lookupKey (key : string) (props : JObject) : option JsValue :=
  match props with
  | [] => None
  | (k, v) :: rest => if String.eqb k key then Some v else lookupKey key rest
  end.

(** The element of array [items] whose index prints as [key], the
    first element having index [i]. *)
Fixpoint lookupIndex (key : string) (i : nat) (items : list JsValue) : option JsValue :=
  match items with
  | [] => None
  | v :: rest => if String.eqb (pretty i) key then Some v else lookupIndex key (S i) rest
  end.

(** [key in o] and [o[key]] for an object or an array [o], read
    among the properties [o] owns: [None] when [o] owns no such
    property. A property that [o] owns shadows what its prototype
    provides; the members a payload only inherits are functions and
    prototype objects, which are not data, and they are named by
    [inheritsKey] below. *)
Definition getProp (o : JsValue) (key : string) : option JsValue :=
  match o with
  | JObj props => lookupKey key props
  | JArr items =>
      match lookupIndex key 0 items with
      | Some v => Some v
      | None =>
          if String.eqb key "length" then Some (JNum (Z.of_nat (length items))) else None
      end
  | _ => None
  end.

Definition hasProp (o : JsValue) (key : string) : bool :=
  match getProp o key with Some _ => true | None => false end.

Definition readProp (o : JsValue) (key : string) : JsValue :=
  match getProp o key with Some v => v | None => JUndefined end.

(** The string keys every plain object inherits from
    [Object.prototype]: [key in o] holds for each of them whether or
    not [o] owns the key, and [o[key]] is then a function, or the
    prototype itself under [__proto__]. *)
Definition objectPrototypeKeys : list string :=
  [ "constructor"; "__defineGetter__"; "__defineSetter__"; "hasOwnProperty";
    "__lookupGetter__"; "__lookupSetter__"; "isPrototypeOf"; "propertyIsEnumerable";
    "toString"; "valueOf"; "__proto__"; "toLocaleString" ].

Definition inheritsKey (key : string) : bool :=
  existsb (String.eqb key) objectPrototypeKeys.

(** No key occurs twice in an object, at any depth. *)
Fixpoint wellFormed (v : JsValue) : bool :=
  match v with
  | JArr items => forallb wellFormed items
  | JObj props =>
      bool_decide (NoDup (map fst props)) && forallb (λ kv, wellFormed (snd kv)) props
  | _ => true
  end.

(** Modelled from the spec: [deepCopy] is imported from n8n-workflow
    and its source is not at hand; §3 calls the in-memory
    representation "a value object copied per request". On JSON data
    the copy rebuilds every array and object. *)
Fixpoint deepCopy (v : JsValue) : JsValue :=
  match v with
  | JArr items => JArr (map deepCopy items)
  | JObj props => JObj (map (λ kv, (fst kv, deepCopy (snd kv))) props)
  | _ => v
  end.

Definition deepCopyObject (o : JObject) : JObject :=
  map (λ kv, (fst kv, deepCopy (snd kv))) o.

(** [v.toString().length > 0]. [null] and [undefined] have no
    [toString]; an object whose own [toString] property is data cannot
    be called; an array joins its elements with commas, [null] and
    [undefined] elements printing as nothing. *)
Fixpoint toStringIsNonEmpty (v : JsValue) : Result bool :=
  match v with
  | JUndefined | JNull => Throw TypeError
  | JBool _ | JNum _ => Ok true
  | JStr s => Ok (negb (String.eqb s ""))
  | JObj props =>
      match lookupKey "toString" props with
      | Some _ => Throw TypeError
      | None => Ok true
      end
  | JArr items =>
      parts ← mapM (λ x, match x with
                         | JUndefined | JNull => Ok false
                         | _ => toStringIsNonEmpty x
                         end) items ;
      Ok (match parts with
          | [] => false
          | [b] => b
          | _ :: _ :: _ => true
          end)
  end.

(** ** Credential types and their flattened schema *)

(** The fields of [INodeProperties] that redaction reads:
    [typeOptions?.password] and [noDataExpression], both as the
    truthiness the code tests. *)
Record INodeProperties := {
  np_name : string;
  np_password : bool;
  np_noDataExpression : bool;
}.

(** [ct_extends] is [None] where the type declares no [extends]. *)
Record ICredentialType := {
  ct_name : string;
  ct_extends : option (list string);
  ct_properties : list INodeProperties;
}.

Fixpoint replaceFirst (property : INodeProperties) (main : list INodeProperties)
  : option (list INodeProperties) :=
  match main with
  | [] => None
  | element :: rest =>
      if String.eqb (np_name element) (np_name property) then Some (property :: rest)
      else cons element <$> replaceFirst property rest
  end.

(** Modelled from the spec: [NodeHelpers.mergeNodeProperties] is
    imported from n8n-workflow and its source is not at hand. §4.1:
    "a field re-declared at a more specific level replaces the
    inherited descriptor in place of its first occurrence, preserving
    ordering by point of first appearance". *)
Definition mergeNodeProperties (mainProperties addProperties : list INodeProperties)
  : list INodeProperties :=
  foldl (λ main property,
           match replaceFirst property main with
           | Some replaced => replaced
           | None => main ++ [property]
           end) mainProperties addProperties.

(** The two sentinels.

    Modelled from the spec: [CREDENTIAL_BLANKING_VALUE] is declared in
    @/constants and [CREDENTIAL_EMPTY_VALUE] in n8n-workflow, neither
    at hand. §4.3 asks for "two distinct sentinels", a "blanking
    sentinel" and a "presence-but-empty sentinel". *)
Definition CREDENTIAL_BLANKING_VALUE : string :=
  "__n8n_BLANK_VALUE_e5362baf-c777-4d57-a609-6eaf1f9e87f6".

Definition CREDENTIAL_EMPTY_VALUE : string :=
  "__n8n_EMPTY_VALUE_7b1af746-3729-4c60-9b9b-e08eb29e58da".

(** A row of [shared_credentials]. *)
Record SharedCredentials := {
  sc_credentialsId : string;
  sc_projectId : string;
  sc_role : string;
}.

(** The columns of [CredentialsEntity] the service reads. [ce_data]
    is the stored, encrypted payload. *)
Record CredentialsEntity := {
  ce_id : string;
  ce_name : string;
  ce_type : string;
  ce_data : string;
  ce_isManaged : bool;
  ce_shared : list SharedCredentials;
  ce_scopes : option (list string);
}.

(** ** Redaction *)

Section Redaction.

(** [this.credentialTypes.getByName]; [None] where it throws. *)
Variable getByName : string → option ICredentialType.

Definition getByNameOrThrow (typeName : string) : Result ICredentialType :=
  match getByName typeName with
  | Some t => Ok t
  | None => Throw (UnknownCredentialTypeError typeName)
  end.

(** The closure [getExtendedProps] of [redact]. The recursion follows
    [extends] through the registry, [fuel] bounds its depth. *)
Fixpoint getExtendedProps (fuel : nat) (type : ICredentialType)
  : Result (list INodeProperties) :=
  match fuel with
  | O => Diverged
  | S fuel' =>
      props ← (fix loop (es : list string) (props : list INodeProperties) :=
                 match es with
                 | [] => Ok props
                 | e :: rest =>
                     extendsType ← getByNameOrThrow e ;
                     extendedProps ← getExtendedProps fuel' extendsType ;
                     loop rest (mergeNodeProperties props extendedProps)
                 end) (default [] (ct_extends type)) [] ;
      Ok (mergeNodeProperties props (ct_properties type))
  end.

(** The two-way assignment both masking branches of [redact] make. *)
Definition blank (value : JsValue) : Result JsValue :=
  nonEmpty ← toStringIsNonEmpty value ;
  Ok (JStr (if nonEmpty : bool then CREDENTIAL_BLANKING_VALUE else CREDENTIAL_EMPTY_VALUE)).

(** One turn of the loop over [Object.keys(copiedData)]: the value
    the key holds afterwards. *)
Definition redactEntry (properties : list INodeProperties) (entry : string * JsValue)
  : Result (string * JsValue) :=
  let '(dataKey, value) := entry in
  if String.eqb dataKey "oauthTokenData" || String.eqb dataKey "csrfSecret" then
    masked ← blank value ; Ok (dataKey, masked)
  else
    match find (λ v, String.eqb (np_name v) dataKey) properties with
    | None => Ok (dataKey, value)
    | Some prop =>
        if np_password prop then
          match value with
          | JStr s =>
              if negb (String.prefix "={{" s) || np_noDataExpression prop then
                masked ← blank value ; Ok (dataKey, masked)
              else Ok (dataKey, value)
          | _ => Throw TypeError
          end
        else Ok (dataKey, value)
    end.

Definition redact (fuel : nat) (data : JObject) (credential : CredentialsEntity)
  : Result JObject :=
  let copiedData := deepCopyObject data in
  match getByName (ce_type credential) with
  | None => Ok data
  | Some credType =>
      properties ← getExtendedProps fuel credType ;
      mapM (redactEntry properties) copiedData
  end.

End Redaction.

(** ** Unredaction *)

Definition isSentinel (value : JsValue) : bool :=
  match value with
  | JStr s => String.eqb s CREDENTIAL_BLANKING_VALUE || String.eqb s CREDENTIAL_EMPTY_VALUE
  | _ => false
  end.

(** What one turn of the loop of [unredactRestoreValues] leaves at
    [key]; [descend] is the recursive call on the value. *)
Definition restoreEntry (replacement : JsValue) (key : string) (value : JsValue)
    (descend : JsValue → JsValue) : JsValue :=
  if isSentinel value then readProp replacement key
  else if isObject value && hasProp replacement key && isObject (readProp replacement key)
  then descend (readProp replacement key)
  else value.

(** [unredactRestoreValues] updates [unmerged] in place; here it
    returns the updated value. The entries of an array are its
    elements under their printed indices. *)
Fixpoint unredactRestoreValues (unmerged replacement : JsValue) {struct unmerged} : JsValue :=
  match unmerged with
  | JObj props =>
      JObj (map (λ entry,
                   (fst entry,
                    restoreEntry replacement (fst entry) (snd entry)
                                 (unredactRestoreValues (snd entry)))) props)
  | JArr items =>
      JArr (mapFrom (λ i value,
                       restoreEntry replacement (pretty i) value
                                    (unredactRestoreValues value)) 0 items)
  | _ => unmerged
  end.

Definition ownProps (v : JsValue) : JObject :=
  match v with JObj props => props | _ => [] end.

Definition unredact (redactedData savedData : JObject) : JObject :=
  let mergedData := deepCopy (JObj redactedData) in
  ownProps (unredactRestoreValues mergedData (JObj savedData)).

(** ** The sharing table and [transferAll] *)

(** One entry per row of [shared_credentials]: the primary key
    (credentialsId, projectId) maps to the role. *)
Abbreviation SharingTable := (gmap (string * string) string).

Definition rowOf (entry : string * string * string) : SharedCredentials :=
  {| sc_credentialsId := entry.1.1; sc_projectId := entry.1.2; sc_role := entry.2 |}.

Definition allRows (table : SharingTable) : list SharedCredentials :=
  rowOf <$> map_to_list table.

(** [trx.findBy(SharedCredentials, { projectId: In(projectIds) })] *)
Definition findByProjectIn (projectIds : list string) (table : SharingTable)
  : list SharedCredentials :=
  filter (λ sc, sc_projectId sc ∈ projectIds) (allRows table).

(** Modelled from the spec: [SharedCredentialsRepository.makeOwner]
    is not at hand. §4.4 step 2: the owner rows are reassigned to the
    destination project, role unchanged, and this "overwrites any
    pre-existing relation the destination project had to the same
    credential"; §8: the destination's prior row "is replaced by
    [owner], not duplicated". *)
Definition makeOwner (credentialIds : list string) (projectId : string)
    (table : SharingTable) : SharingTable :=
  foldl (λ t credentialsId, <[(credentialsId, projectId) := "credential:owner"]> t)
        table credentialIds.

(** Modelled from the spec: [SharedCredentialsRepository.deleteByIds]
    is not at hand. §4.4 step 3 deletes rows of the project it is
    given; the call passes the credential ids whose rows go. *)
Definition deleteByIds (sharedCredentialsIds : list string) (projectId : string)
    (table : SharingTable) : SharingTable :=
  filter (λ entry, ¬ (entry.1.2 = projectId ∧ entry.1.1 ∈ sharedCredentialsIds)) table.

(** [trx.insert]: a row whose primary key is taken fails the
    statement. *)
Fixpoint insertRows (rows : list SharedCredentials) (table : SharingTable)
  : Result SharingTable :=
  match rows with
  | [] => Ok table
  | sc :: rest =>
      match table !! (sc_credentialsId sc, sc_projectId sc) with
      | Some _ => Throw UniqueConstraintError
      | None =>
          insertRows rest (<[(sc_credentialsId sc, sc_projectId sc) := sc_role sc]> table)
      end
  end.

Definition transferAll (fromProjectId toProjectId : string) (table : SharingTable)
  : Result SharingTable :=
  let allSharedCredentials := findByProjectIn [fromProjectId; toProjectId] table in
  let sharedCredentialsOfFromProject :=
    filter (λ sc, sc_projectId sc = fromProjectId) allSharedCredentials in
  let ownedCredentialIds :=
    sc_credentialsId <$>
      filter (λ sc, sc_role sc = "credential:owner") sharedCredentialsOfFromProject in
  let table1 := makeOwner ownedCredentialIds toProjectId table in
  let table2 := deleteByIds ownedCredentialIds fromProjectId table1 in
  let sharedCredentialIdsOfTransferee :=
    sc_credentialsId <$>
      filter (λ sc, sc_projectId sc = toProjectId) allSharedCredentials in
  let sharedCredentialsToTransfer :=
    filter (λ sc, sc_role sc ≠ "credential:owner"
                  ∧ sc_credentialsId sc ∉ sharedCredentialIdsOfTransferee)
           sharedCredentialsOfFromProject in
  insertRows
    ((λ sc, {| sc_credentialsId := sc_credentialsId sc;
               sc_projectId := toProjectId;
               sc_role := sc_role sc |}) <$> sharedCredentialsToTransfer)
    table2.

(** "For every credential, at most one [owner] sharing exists." *)
Definition ownerUnique (table : SharingTable) : Prop :=
  ∀ credentialsId p q,
    table !! (credentialsId, p) = Some "credential:owner" →
    table !! (credentialsId, q) = Some "credential:owner" →
    p = q.

(** The same, as a check that can be run on a table. *)
Definition ownerUniqueb (table : SharingTable) : bool :=
  forallb (λ a, forallb (λ b,
      negb (bool_decide (sc_role a = "credential:owner"))
      || negb (bool_decide (sc_role b = "credential:owner"))
      || negb (bool_decide (sc_credentialsId a = sc_credentialsId b))
      || bool_decide (sc_projectId a = sc_projectId b)) (allRows table)) (allRows table).

(** The number of owner rows held by the projects [projectIds]. *)
Definition ownerCount (projectIds : list string) (table : SharingTable) : nat :=
  length (filter (λ sc, sc_role sc = "credential:owner" ∧ sc_projectId sc ∈ projectIds)
                 (allRows table)).

(** The rows a project holds. *)
Definition rowsOfProject (projectId : string) (table : SharingTable)
  : list SharedCredentials :=
  filter (λ sc, sc_projectId sc = projectId) (allRows table).

(** ** Users, projects and list queries *)

Record User := {
  user_id : string;
}.

Inductive ProjectType := personal | team.

Record Project := {
  project_id : string;
  project_type : ProjectType;
}.

Record ProjectRelation := {
  pr_projectId : string;
  pr_userId : string;
  pr_role : string;
}.

(** [ListQuery.Options.filter]: the two entries [getMany] reads, and
    the others as they came. *)
Record Filter := {
  filter_projectId : option string;
  filter_shared_projectId : option string;
  filter_others : JObject;
}.

Record ListQueryOptions := {
  lq_filter : option Filter;
  lq_select : option (list string);
  lq_skip : option nat;
  lq_take : option nat;
}.

Record GetManyOptions := {
  listQueryOptions : option ListQueryOptions;
  includeScopes : option string;
}.

(** Truthiness of an optional string: present and not empty. *)
Definition truthyString (s : option string) : bool :=
  match s with
  | Some s => negb (String.eqb s "")
  | None => false
  end.

Definition filterProjectId (options : GetManyOptions) : option string :=
  lq ← listQueryOptions options ; f ← lq_filter lq ; filter_projectId f.

Definition filterSharedProjectId (options : GetManyOptions) : option string :=
  lq ← listQueryOptions options ; f ← lq_filter lq ; filter_shared_projectId f.

(** [options.listQueryOptions.filter.projectId = projectId], where the
    filter exists; [None] deletes the entry. *)
Definition setFilterProjectId (projectId : option string) (options : GetManyOptions)
  : GetManyOptions :=
  {| listQueryOptions :=
       (λ lq, {| lq_filter :=
                   (λ f, {| filter_projectId := projectId;
                            filter_shared_projectId := filter_shared_projectId f;
                            filter_others := filter_others f |}) <$> lq_filter lq;
                 lq_select := lq_select lq;
                 lq_skip := lq_skip lq;
                 lq_take := lq_take lq |}) <$> listQueryOptions options;
     includeScopes := includeScopes options |}.

(** What a caller of [getCredentialsAUserCanUseInAWorkflow] gets per
    credential. *)
Record UsableCredential := {
  uc_id : string;
  uc_name : string;
  uc_type : string;
  uc_scopes : option (list string);
  uc_isManaged : bool;
}.

Inductive WorkflowOrProject :=
| OfWorkflow (workflowId : string)
| OfProject (projectId : string).

(** The shape of the [where] clause [getSharing] builds. *)
Record SharingWhere := {
  where_credentialsId : string;
  where_role : option string;
  where_projectRelation : option (string * string);
}.

(** A sharing with its [credentials] relation loaded. *)
Record SharingWithCredentials := {
  sharing : SharedCredentials;
  credentials : CredentialsEntity;
}.

(** What [getOne] returns: [rest], every column but [data], and
    [data] where the decrypted payload is included. *)
Record CredentialRest := {
  rest_id : string;
  rest_name : string;
  rest_type : string;
  rest_isManaged : bool;
  rest_shared : list SharedCredentials;
  rest_scopes : option (list string);
}.

Record GetOneResult := {
  one_data : option JsValue;
  one_rest : CredentialRest;
}.

Definition withoutData (credential : CredentialsEntity) : CredentialRest :=
  {| rest_id := ce_id credential;
     rest_name := ce_name credential;
     rest_type := ce_type credential;
     rest_isManaged := ce_isManaged credential;
     rest_shared := ce_shared credential;
     rest_scopes := ce_scopes credential |}.

(** ** Access resolution, listing and [getOne] *)

Section Access.

Variable hasGlobalScope : User → string → bool.

(** [ProjectService] *)
Variable getProjectRelationsForUser : User → list ProjectRelation.
Variable getProject : string → option Project.
Variable getPersonalProject : User → option Project.

(** [CredentialsRepository] *)
Variable findMany : option ListQueryOptions → option (list string) → list CredentialsEntity.
Variable findCredentialsForUser : User → list string → list CredentialsEntity.
Variable findAllPersonalCredentials : list CredentialsEntity.
Variable findAllCredentialsForWorkflow : string → list CredentialsEntity.
Variable findAllCredentialsForProject : string → list CredentialsEntity.

(** [SharedCredentialsRepository] *)
Variable getAllRelationsForCredentials : list string → list SharedCredentials.
Variable getCredentialIdsByUserAndRole : list string → list string → list string.
Variable findOne : SharingWhere → option SharingWithCredentials.

(** [UserRepository] *)
Variable findPersonalOwnerForWorkflow : string → option User.
Variable findPersonalOwnerForProject : string → option User.

(** [OwnershipService] and [RoleService] *)
Variable addOwnedByAndSharedWith : CredentialsEntity → CredentialsEntity.
Variable combineResourceScopes :
  User → list SharedCredentials → list ProjectRelation → list string.

(** The cipher: [createCredentialsFromCredentialsEntity(c).getData()]. *)
Variable decrypt : CredentialsEntity → Result JObject.

(** Modelled from the spec: [RoleService.addScopes] is not at hand.
    §4.2: the scopes of a credential merge "global scopes with
    resource-level scopes derived from the sharing role held via any
    project the user belongs to"; the entity is annotated with them. *)
Definition addScopes (c : CredentialsEntity) (user : User)
    (userProjectRelations : list ProjectRelation) : CredentialsEntity :=
  {| ce_id := ce_id c;
     ce_name := ce_name c;
     ce_type := ce_type c;
     ce_data := ce_data c;
     ce_isManaged := ce_isManaged c;
     ce_shared := ce_shared c;
     ce_scopes := Some (combineResourceScopes user (ce_shared c) userProjectRelations) |}.

Definition setShared (shared : list SharedCredentials) (c : CredentialsEntity)
  : CredentialsEntity :=
  {| ce_id := ce_id c;
     ce_name := ce_name c;
     ce_type := ce_type c;
     ce_data := ce_data c;
     ce_isManaged := ce_isManaged c;
     ce_shared := shared;
     ce_scopes := ce_scopes c |}.

(** The tail both branches of [getMany] share: the relations are
    reloaded where the query filtered them, then ownership and scopes
    are added. *)
Definition decorate (user : User) (options : GetManyOptions)
    (isDefaultSelect : bool) (projectRelations : list ProjectRelation)
    (found : list CredentialsEntity) : list CredentialsEntity :=
  let credentials :=
    if isDefaultSelect then
      let credentials :=
        if truthyString (filterSharedProjectId options) then
          let relations := getAllRelationsForCredentials (ce_id <$> found) in
          (λ c, setShared (filter (λ r, sc_credentialsId r = ce_id c) relations) c) <$> found
        else found in
      addOwnedByAndSharedWith <$> credentials
    else found in
  if truthyString (includeScopes options) then
    (λ c, addScopes c user projectRelations) <$> credentials
  else credentials.

Definition getMany (user : User) (options : GetManyOptions) : list CredentialsEntity :=
  let returnAll := hasGlobalScope user "credential:list" in
  let isDefaultSelect :=
    match listQueryOptions options with
    | Some lq => match lq_select lq with Some _ => false | None => true end
    | None => true
    end in
  let projectRelations :=
    if truthyString (includeScopes options) then getProjectRelationsForUser user else [] in
  let options :=
    if truthyString (includeScopes options)
       && truthyString (filterProjectId options)
       && hasGlobalScope user "credential:list"
    then
      match find (λ relation, bool_decide (Some (pr_projectId relation) = filterProjectId options))
                 projectRelations with
      | Some projectRelation =>
          if String.eqb (pr_role projectRelation) "project:personalOwner"
          then setFilterProjectId None options
          else options
      | None => options
      end
    else options in
  if returnAll then
    decorate user options isDefaultSelect projectRelations
             (findMany (listQueryOptions options) None)
  else
    let options :=
      match filterProjectId options with
      | Some projectId =>
          match getProject projectId with
          | Some project =>
              match project_type project with
              | personal =>
                  setFilterProjectId (project_id <$> getPersonalProject user) options
              | team => options
              end
          | None => options
          end
      | None => options
      end in
    let ids := getCredentialIdsByUserAndRole [user_id user] ["credential:read"] in
    decorate user options isDefaultSelect projectRelations
             (findMany (listQueryOptions options) (Some ids)).

Definition findAllCredentialIdsForWorkflow (workflowId : string) : list CredentialsEntity :=
  match findPersonalOwnerForWorkflow workflowId with
  | Some user =>
      if hasGlobalScope user "credential:read" then findAllPersonalCredentials
      else findAllCredentialsForWorkflow workflowId
  | None => findAllCredentialsForWorkflow workflowId
  end.

Definition findAllCredentialIdsForProject (projectId : string) : list CredentialsEntity :=
  match findPersonalOwnerForProject projectId with
  | Some user =>
      if hasGlobalScope user "credential:read" then findAllPersonalCredentials
      else findAllCredentialsForProject projectId
  | None => findAllCredentialsForProject projectId
  end.

Definition getCredentialsAUserCanUseInAWorkflow (user : User) (options : WorkflowOrProject)
  : list UsableCredential :=
  let projectRelations := getProjectRelationsForUser user in
  let allCredentials := findCredentialsForUser user ["credential:read"] in
  let allCredentialsForWorkflow :=
    match options with
    | OfWorkflow workflowId => ce_id <$> findAllCredentialIdsForWorkflow workflowId
    | OfProject projectId => ce_id <$> findAllCredentialIdsForProject projectId
    end in
  let intersection :=
    filter (λ c, ce_id c ∈ allCredentialsForWorkflow) allCredentials in
  (λ c, {| uc_id := ce_id c;
           uc_name := ce_name c;
           uc_type := ce_type c;
           uc_scopes := ce_scopes c;
           uc_isManaged := ce_isManaged c |})
    <$> ((λ c, addScopes c user projectRelations) <$> intersection).

Definition getSharing (user : User) (credentialId : string) (globalScopes : list string)
  : option SharingWithCredentials :=
  let whereClause :=
    if negb (forallb (hasGlobalScope user) globalScopes) then
      {| where_credentialsId := credentialId;
         where_role := Some "credential:owner";
         where_projectRelation := Some ("project:personalOwner", user_id user) |}
    else
      {| where_credentialsId := credentialId;
         where_role := None;
         where_projectRelation := None |} in
  findOne whereClause.

Section GetOne.

Variable getByName : string → option ICredentialType.

Definition getOne (fuel : nat) (user : User) (credentialId : string)
    (includeDecryptedData : bool) : Result GetOneResult :=
  let sharing :=
    if includeDecryptedData then getSharing user credentialId ["credential:read"]
    else None in
  '(sharing, decryptedData) ←
    match sharing with
    | Some s =>
        decrypted ← decrypt (credentials s) ;
        redacted ← redact getByName fuel decrypted (credentials s) ;
        Ok (Some s, Some redacted)
    | None => Ok (getSharing user credentialId ["credential:read"], None)
    end ;
  match sharing with
  | None => Throw (NotFoundError credentialId)
  | Some s =>
      let rest := withoutData (credentials s) in
      match decryptedData with
      | Some decryptedData => Ok {| one_data := Some (JObj decryptedData); one_rest := rest |}
      | None => Ok {| one_data := None; one_rest := rest |}
      end
  end.

End GetOne.

End Access.

(** ** [prepareUpdateData] *)

(** [CredentialRequest.CredentialProperties], the body of an update. *)
Record CredentialProperties := {
  cp_id : option string;
  cp_name : string;
  cp_type : string;
  cp_data : option JObject;
  cp_projectId : option string;
}.

(** The entity [credentialsRepository.create] builds from the body;
    at this point its [data] still is the decrypted object. *)
Record UpdateEntity := {
  ue_id : option string;
  ue_name : string;
  ue_type : string;
  ue_data : option JObject;
}.

(** [o[key] = value]: in place where the key exists, at the end
    otherwise. *)
Fixpoint setProp (key : string) (value : JsValue) (o : JObject) : JObject :=
  match o with
  | [] => [(key, value)]
  | (k, v) :: rest =>
      if String.eqb k key then (k, value) :: rest else (k, v) :: setProp key value rest
  end.

Section Update.

(** [validateEntity], [false] where it throws. *)
Variable validateEntity : UpdateEntity → bool.

Definition prepareUpdateData (data : CredentialProperties) (decryptedData : JObject)
  : Result UpdateEntity :=
  let mergedData := option_map deepCopyObject (cp_data data) in
  let mergedData := option_map (λ d, unredact d decryptedData) mergedData in
  let updateData :=
    {| ue_id := cp_id data;
       ue_name := cp_name data;
       ue_type := cp_type data;
       ue_data := mergedData |} in
  if negb (validateEntity updateData) then Throw BadRequestError
  else if truthy (readProp (JObj decryptedData) "oauthTokenData") then
    match ue_data updateData with
    | None => Throw TypeError
    | Some d =>
        Ok {| ue_id := ue_id updateData;
              ue_name := ue_name updateData;
              ue_type := ue_type updateData;
              ue_data := Some (setProp "oauthTokenData"
                                       (readProp (JObj decryptedData) "oauthTokenData") d) |}
    end
  else Ok updateData.

End Update.

(** ** Predicates the properties are stated with *)

(** The keys [redact] masks whatever the schema says. *)
Definition isCrossCuttingSecret (dataKey : string) : bool :=
  String.eqb dataKey "oauthTokenData" || String.eqb dataKey "csrfSecret".

Definition findProperty (properties : list INodeProperties) (dataKey : string)
  : option INodeProperties :=
  find (λ v, String.eqb (np_name v) dataKey) properties.

(** A field is sensitive when it is a cross-cutting secret or the
    flattened schema marks it as a password. *)
Definition isSensitive (properties : list INodeProperties) (dataKey : string) : bool :=
  isCrossCuttingSecret dataKey
  || match findProperty properties dataKey with
     | Some prop => np_password prop
     | None => false
     end.

(** The fields [redact] masks: the cross-cutting secrets, and the
    password fields that hold no expression or allow none. *)
Definition isMasked (properties : list INodeProperties) (dataKey : string)
    (value : JsValue) : bool :=
  isCrossCuttingSecret dataKey
  || match findProperty properties dataKey with
     | Some prop =>
         np_password prop
         && match value with
            | JStr s => negb (String.prefix "={{" s) || np_noDataExpression prop
            | _ => false
            end
     | None => false
     end.

(** A payload conforms to a schema when its password fields hold
    strings, which is what the cast [as string] in [redact] takes for
    granted, and its cross-cutting secrets hold values that print. *)
Definition conformsTo (properties : list INodeProperties) (data : JObject) : bool :=
  forallb (λ entry,
             if isCrossCuttingSecret (fst entry) then
               match toStringIsNonEmpty (snd entry) with Ok _ => true | _ => false end
             else
               match findProperty properties (fst entry) with
               | Some prop =>
                   negb (np_password prop)
                   || match snd entry with JStr _ => true | _ => false end
               | None => true
               end) data.

(** ** Worked examples *)

(** A registry with an inheritance chain: the Outlook type extends
    the generic OAuth2 type, which marks [clientSecret] as a
    password. [httpHeaderAuth] has a password field that takes no
    expression. *)
Definition exampleTypes (typeName : string) : option ICredentialType :=
  if String.eqb typeName "oAuth2Api" then
    Some {| ct_name := "oAuth2Api";
            ct_extends := None;
            ct_properties :=
              [ {| np_name := "clientId"; np_password := false;
                   np_noDataExpression := false |};
                {| np_name := "clientSecret"; np_password := true;
                   np_noDataExpression := false |};
                {| np_name := "scope"; np_password := false;
                   np_noDataExpression := false |} ] |}
  else if String.eqb typeName "microsoftOutlookOAuth2Api" then
    Some {| ct_name := "microsoftOutlookOAuth2Api";
            ct_extends := Some ["oAuth2Api"];
            ct_properties :=
              [ {| np_name := "useShared"; np_password := false;
                   np_noDataExpression := false |};
                {| np_name := "userPrincipalName"; np_password := true;
                   np_noDataExpression := false |} ] |}
  else None.

Definition outlookType : ICredentialType :=
  {| ct_name := "microsoftOutlookOAuth2Api";
     ct_extends := Some ["oAuth2Api"];
     ct_properties :=
       [ {| np_name := "useShared"; np_password := false;
            np_noDataExpression := false |};
         {| np_name := "userPrincipalName"; np_password := true;
            np_noDataExpression := false |} ] |}.

Definition outlookProperties : list INodeProperties :=
  [ {| np_name := "clientId"; np_password := false; np_noDataExpression := false |};
    {| np_name := "clientSecret"; np_password := true; np_noDataExpression := false |};
    {| np_name := "scope"; np_password := false; np_noDataExpression := false |};
    {| np_name := "useShared"; np_password := false; np_noDataExpression := false |};
    {| np_name := "userPrincipalName"; np_password := true;
       np_noDataExpression := false |} ].

Definition outlookCredential : CredentialsEntity :=
  {| ce_id := "17";
     ce_name := "Outlook account";
     ce_type := "microsoftOutlookOAuth2Api";
     ce_data := "U2FsdGVkX1+encrypted";
     ce_isManaged := false;
     ce_shared := [];
     ce_scopes := None |}.

(** A credential of a community node that was removed. *)
Definition orphanCredential : CredentialsEntity :=
  {| ce_id := "18";
     ce_name := "Old account";
     ce_type := "removedCommunityNodeApi";
     ce_data := "U2FsdGVkX1+encrypted";
     ce_isManaged := false;
     ce_shared := [];
     ce_scopes := None |}.

Definition outlookPayload : JObject :=
  [ ("clientId", JStr "3f1c");
    ("clientSecret", JStr "sk_live_abc");
    ("scope", JStr "openid offline_access");
    ("userPrincipalName", JStr "");
    ("oauthTokenData",
     JObj [ ("access_token", JStr "eyJ0"); ("scope", JArr [JStr "Mail.Read"; JNum 2]) ]);
    ("csrfSecret", JStr "") ].

(** §8, schema inheritance: [childApi] extends [parentApi] and
    declares its password field [x] again, as a plain field. *)
Definition inheritingTypes (typeName : string) : option ICredentialType :=
  if String.eqb typeName "parentApi" then
    Some {| ct_name := "parentApi";
            ct_extends := None;
            ct_properties :=
              [ {| np_name := "x"; np_password := true; np_noDataExpression := false |};
                {| np_name := "y"; np_password := false;
                   np_noDataExpression := false |} ] |}
  else if String.eqb typeName "childApi" then
    Some {| ct_name := "childApi";
            ct_extends := Some ["parentApi"];
            ct_properties :=
              [ {| np_name := "z"; np_password := true; np_noDataExpression := false |};
                {| np_name := "x"; np_password := false;
                   np_noDataExpression := false |} ] |}
  else None.

(** §8: "A owns credentials c1, c2 and B already shares c1". *)
Definition specTable : SharingTable :=
  list_to_map
    [ (("c1", "projectA"), "credential:owner");
      (("c2", "projectA"), "credential:owner");
      (("c1", "projectB"), "credential:user") ].

(** The same, where A also has c3 shared with it, and C owns c3. *)
Definition scenarioTable : SharingTable :=
  list_to_map
    [ (("c1", "projectA"), "credential:owner");
      (("c2", "projectA"), "credential:owner");
      (("c1", "projectB"), "credential:user");
      (("c3", "projectA"), "credential:user");
      (("c3", "projectC"), "credential:owner") ].

(** A project that owns one credential. *)
Definition ownerOnlyTable : SharingTable :=
  list_to_map [ (("c1", "projectA"), "credential:owner") ].

(** A project that only has a credential shared with it. *)
Definition shareeTable : SharingTable :=
  list_to_map
    [ (("c3", "projectA"), "credential:user");
      (("c3", "projectC"), "credential:owner") ].

(** A member without global scopes who lists the credentials of
    another user's personal project. *)
Definition member : User := {| user_id := "u-member" |}.

Definition memberProject : Project :=
  {| project_id := "p-member"; project_type := personal |}.

Definition othersProject : Project :=
  {| project_id := "p-other"; project_type := personal |}.

Definition listOthersProject : GetManyOptions :=
  {| listQueryOptions :=
       Some {| lq_filter := Some {| filter_projectId := Some "p-other";
                                    filter_shared_projectId := None;
                                    filter_others := [] |};
               lq_select := None;
               lq_skip := None;
               lq_take := None |};
     includeScopes := None |}.

(** An update of one unrelated field, against a saved payload whose
    token data is the empty string, and against one with a token. *)
Definition renameClient : CredentialProperties :=
  {| cp_id := Some "17";
     cp_name := "Outlook account";
     cp_type := "microsoftOutlookOAuth2Api";
     cp_data := Some [ ("clientId", JStr "9a2e") ];
     cp_projectId := None |}.

Definition savedWithEmptyToken : JObject :=
  [ ("clientId", JStr "3f1c"); ("oauthTokenData", JStr "") ].

Definition savedWithToken : JObject :=
  [ ("clientId", JStr "3f1c");
    ("oauthTokenData", JObj [ ("access_token", JStr "eyJ0") ]) ].

(** What a caller sees of [outlookPayload]. *)
Definition outlookRedacted : JObject :=
  [ ("clientId", JStr "3f1c");
    ("clientSecret", JStr CREDENTIAL_BLANKING_VALUE);
    ("scope", JStr "openid offline_access");
    ("userPrincipalName", JStr CREDENTIAL_EMPTY_VALUE);
    ("oauthTokenData", JStr CREDENTIAL_BLANKING_VALUE);
    ("csrfSecret", JStr CREDENTIAL_EMPTY_VALUE) ].

(** ** Predicates and examples for further properties *)

(** A value that is a sentinel or holds one at some depth. *)
Fixpoint mentionsSentinel (v : JsValue) : bool :=
  isSentinel v
  || match v with
     | JArr items => existsb mentionsSentinel items
     | JObj props => existsb (λ kv, mentionsSentinel (snd kv)) props
     | _ => false
     end.

(** ** Creating a credential *)

(** What [createEncryptedData] returns: the columns to save, [data]
    encrypted. *)
Record ICredentialsDb := {
  db_id : option string;
  db_name : string;
  db_type : string;
  db_data : string;
}.

(** The errors of the creation path: those above, and the
    [ApplicationError] of [save]. *)
Inductive CreateError :=
| Thrown (e : Error)
| ApplicationError (message : string).

Definition setData (data : string) (c : CredentialsEntity) : CredentialsEntity :=
  {| ce_id := ce_id c;
     ce_name := ce_name c;
     ce_type := ce_type c;
     ce_data := data;
     ce_isManaged := ce_isManaged c;
     ce_shared := ce_shared c;
     ce_scopes := ce_scopes c |}.

Section Create.

(** [validateEntity], [false] where it throws. *)
Variable validateEntity : UpdateEntity → bool.

(** The cipher: [new Credentials(...).setData(...).getDataToSave()]. *)
Variable encrypt : option string → UpdateEntity → ICredentialsDb.

(** The row [transactionManager.save] returns for the entity that
    [Object.assign] builds from [credential] and [encryptedData]; the
    database assigns its id. *)
Variable persist : UpdateEntity → ICredentialsDb → CredentialsEntity.

(** [ProjectRepository] and [ProjectService] *)
Variable getPersonalProjectForUserOrFail : string → Error + option Project.
Variable getProjectWithScope : User → string → list string → option Project.
Variable getProjectRelationsForUser : User → list ProjectRelation.

(** [RoleService] *)
Variable combineResourceScopes :
  User → list SharedCredentials → list ProjectRelation → list string.

Definition prepareCreateData (data : CredentialProperties) : CreateError + UpdateEntity :=
  let newCredentials :=
    {| ue_id := None;
       ue_name := cp_name data;
       ue_type := cp_type data;
       ue_data := cp_data data |} in
  if validateEntity newCredentials then inr newCredentials
  else inl (Thrown BadRequestError).

Definition createEncryptedData (credentialId : option string) (data : UpdateEntity)
  : ICredentialsDb :=
  encrypt credentialId data.

(** The transaction of [save], on the sharing table. An error rolls
    the transaction back: no table comes out of it. *)
Definition save (credential : UpdateEntity) (encryptedData : ICredentialsDb)
    (user : User) (projectId : option string) (table : SharingTable)
  : CreateError + (CredentialsEntity * SharingTable) :=
  let savedCredential := setData (db_data encryptedData) (persist credential encryptedData) in
  match
    match projectId with
    | None => getPersonalProjectForUserOrFail (user_id user)
    | Some projectId => inr (getProjectWithScope user projectId ["credential:create"])
    end
  with
  | inl e => inl (Thrown e)
  | inr None =>
      match projectId with
      | Some _ => inl (Thrown BadRequestError)
      | None => inl (ApplicationError "No personal project found")
      end
  | inr (Some project) =>
      inr (savedCredential,
           <[(ce_id savedCredential, project_id project) := "credential:owner"]> table)
  end.

(** [sharedCredentialsRepository.find] by project ids and credential
    id, then [combineResourceScopes]. *)
Definition getCredentialScopes (user : User) (credentialId : string)
    (table : SharingTable) : list string :=
  let userProjectRelations := getProjectRelationsForUser user in
  let shared :=
    filter (λ sc, sc_projectId sc ∈ remove_dups (pr_projectId <$> userProjectRelations)
                  ∧ sc_credentialsId sc = credentialId)
           (allRows table) in
  combineResourceScopes user shared userProjectRelations.

(** The credential as [createCredential] returns it, without its
    [shared] relation and with its scopes. *)
Definition createCredential (credentialsData : CredentialProperties) (user : User)
    (table : SharingTable) : CreateError + (CredentialsEntity * SharingTable) :=
  match prepareCreateData credentialsData with
  | inl e => inl e
  | inr newCredential =>
      let encryptedData := createEncryptedData None newCredential in
      match save newCredential encryptedData user (cp_projectId credentialsData) table with
      | inl e => inl e
      | inr (credential, table') =>
          let scopes := getCredentialScopes user (ce_id credential) table' in
          inr ({| ce_id := ce_id credential;
                  ce_name := ce_name credential;
                  ce_type := ce_type credential;
                  ce_data := ce_data credential;
                  ce_isManaged := ce_isManaged credential;
                  ce_shared := [];
                  ce_scopes := Some scopes |},
               table')
      end
  end.

End Create.

(** ** Examples for the further properties *)

(** A body that sends a password field as an expression. *)
Definition expressionPayload : JObject :=
  [ ("clientId", JStr "3f1c");
    ("clientSecret", JStr "={{ $env.OUTLOOK_SECRET }}") ].

(** A payload whose password field holds a number. *)
Definition numericSecretPayload : JObject :=
  [ ("clientId", JStr "3f1c"); ("clientSecret", JNum 42) ].

(** A registry where [childApi] extends a type that is gone, and
    one where a type extends itself. *)
Definition danglingTypes (typeName : string) : option ICredentialType :=
  if String.eqb typeName "childApi" then
    Some {| ct_name := "childApi";
            ct_extends := Some ["goneApi"];
            ct_properties :=
              [ {| np_name := "token"; np_password := true;
                   np_noDataExpression := false |} ] |}
  else None.

Definition danglingChild : ICredentialType :=
  {| ct_name := "childApi";
     ct_extends := Some ["goneApi"];
     ct_properties :=
       [ {| np_name := "token"; np_password := true; np_noDataExpression := false |} ] |}.



Definition childCredential : CredentialsEntity :=
  {| ce_id := "19";
     ce_name := "Child account";
     ce_type := "childApi";
     ce_data := "U2FsdGVkX1+encrypted";
     ce_isManaged := false;
     ce_shared := [];
     ce_scopes := None |}.

(** An update that sends the client secret back as it was shown. *)
Definition resubmitSecret : CredentialProperties :=
  {| cp_id := Some "17";
     cp_name := "Outlook account";
     cp_type := "microsoftOutlookOAuth2Api";
     cp_data := Some [ ("clientId", JStr "9a2e");
                       ("clientSecret", JStr CREDENTIAL_BLANKING_VALUE) ];
     cp_projectId := None |}.

(** Sharings with their credential, as [findOne] returns them. *)
Definition outlookSharing : SharingWithCredentials :=
  {| sharing := {| sc_credentialsId := "17"; sc_projectId := "p-member";
                   sc_role := "credential:owner" |};
     credentials := outlookCredential |}.

Definition orphanSharing : SharingWithCredentials :=
  {| sharing := {| sc_credentialsId := "18"; sc_projectId := "p-member";
                   sc_role := "credential:owner" |};
     credentials := orphanCredential |}.

(** An instance owner who lists, with scopes, the credentials of
    the owner's own personal project; and a member who lists those
    of a team project. *)
Definition instanceOwner : User := {| user_id := "u-owner" |}.

Definition ownerRelation : ProjectRelation :=
  {| pr_projectId := "p-owner"; pr_userId := "u-owner";
     pr_role := "project:personalOwner" |}.

Definition memberRelation : ProjectRelation :=
  {| pr_projectId := "p-member"; pr_userId := "u-member";
     pr_role := "project:personalOwner" |}.

Definition listOwnProject : GetManyOptions :=
  {| listQueryOptions :=
       Some {| lq_filter := Some {| filter_projectId := Some "p-owner";
                                    filter_shared_projectId := None;
                                    filter_others := [] |};
               lq_select := None;
               lq_skip := None;
               lq_take := None |};
     includeScopes := Some "true" |}.

Definition teamProject : Project :=
  {| project_id := "p-team"; project_type := team |}.

Definition listTeamProject : GetManyOptions :=
  {| listQueryOptions :=
       Some {| lq_filter := Some {| filter_projectId := Some "p-team";
                                    filter_shared_projectId := None;
                                    filter_others := [] |};
               lq_select := None;
               lq_skip := None;
               lq_take := None |};
     includeScopes := None |}.

(** The body of a new credential, what the cipher makes of it, and
    the row the database returns. *)
Definition newOutlook : CredentialProperties :=
  {| cp_id := None;
     cp_name := "Outlook account";
     cp_type := "microsoftOutlookOAuth2Api";
     cp_data := Some [ ("clientId", JStr "3f1c"); ("clientSecret", JStr "sk_live_abc") ];
     cp_projectId := None |}.

Definition newOutlookEntity : UpdateEntity :=
  {| ue_id := None;
     ue_name := "Outlook account";
     ue_type := "microsoftOutlookOAuth2Api";
     ue_data := Some [ ("clientId", JStr "3f1c"); ("clientSecret", JStr "sk_live_abc") ] |}.

Definition newOutlookEncrypted : ICredentialsDb :=
  {| db_id := None;
     db_name := "Outlook account";
     db_type := "microsoftOutlookOAuth2Api";
     db_data := "U2FsdGVkX1+encrypted" |}.

(** * Properties *)

(** ** JSON data *)

Lemma JsValue_nested_ind (P : JsValue → Prop) :
  P JUndefined → P JNull → (∀ b, P (JBool b)) → (∀ n, P (JNum n)) → (∀ s, P (JStr s)) →
  (∀ items, Forall P items → P (JArr items)) →
  (∀ props, Forall (λ entry, P (snd entry)) props → P (JObj props)) →
  ∀ v, P v.
Proof.
  intros HU HN HB HZ HS HA HO. fix IH 1.
  intros [| | b | n | s | items | props];
    [exact HU | exact HN | apply HB | apply HZ | apply HS | apply HA | apply HO].
  - induction items as [|x items IHitems]; constructor; [apply IH | exact IHitems].
  - induction props as [|[k x] props IHprops]; constructor; [apply IH | exact IHprops].
Qed.

Lemma deepCopy_id v : deepCopy v = v.
Proof.
  induction v as [| | | | | items IH | props IH] using JsValue_nested_ind;
    simpl; try reflexivity; f_equal.
  - induction IH as [|x l Hx _ IHl]; simpl; congruence.
  - induction IH as [|[k x] l Hx _ IHl]; simpl in *; congruence.
Qed.

Lemma deepCopyObject_id (o : JObject) : deepCopyObject o = o.
Proof. pose proof (deepCopy_id (JObj o)) as H. simpl in H. by injection H. Qed.

Lemma lookupKey_NoDup key value (props : JObject) :
  NoDup (map fst props) → (key, value) ∈ props → lookupKey key props = Some value.
Proof.
  induction props as [|[k x] props IH]; simpl; intros Hnd Hin.
  - by apply elem_of_nil in Hin.
  - apply NoDup_cons in Hnd as [Hk Hnd].
    apply elem_of_cons in Hin as [Heq | Hin].
    + injection Heq as <- <-. by rewrite String.eqb_refl.
    + destruct (String.eqb_spec k key) as [-> | _]; [|by apply IH].
      exfalso. apply Hk. change key with (fst (key, value)).
      apply list_elem_of_In. apply in_map. by apply list_elem_of_In.
Qed.

Lemma lookupIndex_pretty (items : list JsValue) i j :
  lookupIndex (pretty (i + j)) i items = items !! j.
Proof.
  revert i j. induction items as [|x items IH]; intros i j; simpl; [by destruct j|].
  destruct j as [|j].
  - by rewrite Nat.add_0_r, String.eqb_refl.
  - destruct (String.eqb_spec (pretty i) (pretty (i + S j))) as [Heq | _].
    + apply (inj pretty) in Heq. lia.
    + replace (i + S j) with (S i + j) by lia. apply IH.
Qed.

Lemma wellFormed_JObj (props : JObject) :
  wellFormed (JObj props) = true ↔
  NoDup (map fst props) ∧ Forall (λ entry, wellFormed (snd entry) = true) props.
Proof.
  simpl. rewrite andb_true_iff, bool_decide_eq_true, forallb_forall, Forall_forall.
  split; intros [? H]; split; auto; intros x Hx; apply H; by apply list_elem_of_In.
Qed.

Lemma wellFormed_JArr (items : list JsValue) :
  wellFormed (JArr items) = true ↔ Forall (λ v, wellFormed v = true) items.
Proof.
  simpl. rewrite forallb_forall, Forall_forall.
  split; intros H x Hx; apply H; by apply list_elem_of_In.
Qed.

(** ** Unredaction *)

Lemma restoreEntry_same replacement key value descend :
  readProp replacement key = value →
  (isObject value = true → descend value = value) →
  restoreEntry replacement key value descend = value.
Proof.
  intros Hread Hdesc. unfold restoreEntry. rewrite Hread.
  destruct (isSentinel value); [done|].
  destruct (isObject value); simpl; [|done].
  destruct (hasProp replacement key); simpl; auto.
Qed.

Lemma restoreEntry_sentinel replacement key value descend :
  isSentinel value = true →
  restoreEntry replacement key value descend = readProp replacement key.
Proof. intros H. unfold restoreEntry. by rewrite H. Qed.

Lemma mapFrom_same {A} (f : nat → A → A) (l : list A) i :
  (∀ j x, l !! j = Some x → f (i + j) x = x) → mapFrom f i l = l.
Proof.
  revert i. induction l as [|x l IH]; intros i H; simpl; [done|]. f_equal.
  - transitivity (f (i + 0) x); [by rewrite Nat.add_0_r | by apply H].
  - apply IH. intros j y Hy. replace (S i + j) with (i + S j) by lia. by apply H.
Qed.

Lemma readProp_index (items : list JsValue) j x :
  items !! j = Some x → readProp (JArr items) (pretty j) = x.
Proof.
  intros H. unfold readProp. simpl.
  pose proof (lookupIndex_pretty items 0 j) as Hidx. simpl in Hidx.
  by rewrite Hidx, H.
Qed.

Lemma readProp_key (props : JObject) key value :
  NoDup (map fst props) → (key, value) ∈ props → readProp (JObj props) key = value.
Proof. intros Hnd Hin. unfold readProp. simpl. by rewrite (lookupKey_NoDup key value). Qed.

(** Restoring a well-formed value from itself changes nothing. *)
Lemma unredactRestoreValues_same v :
  wellFormed v = true → unredactRestoreValues v v = v.
Proof.
  induction v as [| | | | | items IH | props IH] using JsValue_nested_ind;
    try reflexivity; intros Hwf.
  - apply wellFormed_JArr in Hwf. simpl. f_equal.
    apply mapFrom_same. intros j x Hx. simpl.
    rewrite Forall_forall in IH, Hwf.
    assert (x ∈ items) as Hin by (by eapply list_elem_of_lookup_2).
    apply restoreEntry_same; [by apply readProp_index | intros _; auto].
  - apply wellFormed_JObj in Hwf as [Hnd Hwf]. simpl. f_equal.
    rewrite <- (map_id props) at 2. apply map_ext_in.
    intros [k x] Hin. apply list_elem_of_In in Hin. simpl. f_equal.
    rewrite Forall_forall in IH, Hwf.
    apply restoreEntry_same; [by apply readProp_key|].
    intros _. apply (IH (k, x) Hin). by apply (Hwf (k, x)).
Qed.

(** The same from a payload whose fields were masked or left alone. *)
Lemma unredact_masked (redacted saved : JObject) :
  wellFormed (JObj saved) = true →
  Forall2 (λ r p, fst r = fst p ∧ (snd r = snd p ∨ isSentinel (snd r) = true))
          redacted saved →
  unredact redacted saved = saved.
Proof.
  intros Hwf Hmask. unfold unredact. rewrite deepCopy_id. simpl.
  pose proof Hwf as Hwf'. apply wellFormed_JObj in Hwf' as [Hnd Hall].
  assert (∀ r p, Forall2 (λ r p, fst r = fst p ∧ (snd r = snd p ∨ isSentinel (snd r) = true)) r p →
                 (∀ e, e ∈ p → e ∈ saved) →
                 map (λ entry, (fst entry,
                        restoreEntry (JObj saved) (fst entry) (snd entry)
                          (unredactRestoreValues (snd entry)))) r = p) as Hgen.
  { induction 1 as [|[k x] [k' y] r p [Hk Hv] _ IHr]; intros Hsub; simpl; [done|].
    simpl in Hk, Hv. subst k'. f_equal.
    - f_equal. assert ((k, y) ∈ saved) as Hin by (apply Hsub; left).
      pose proof (readProp_key saved k y Hnd Hin) as Hread.
      destruct (isSentinel x) eqn:Hs.
      + by rewrite restoreEntry_sentinel.
      + destruct Hv as [-> | Hv]; [|congruence].
        apply restoreEntry_same; [done|]. intros _.
        apply unredactRestoreValues_same.
        rewrite Forall_forall in Hall. by apply (Hall (k, y)).
    - apply IHr. intros e He. apply Hsub. by right. }
  by apply Hgen.
Qed.

(** ** Redaction *)

Lemma mapM_Ok_Forall2 {A B} (f : A → Result B) (l : list A) (l' : list B) :
  mapM f l = Ok l' → Forall2 (λ b a, f a = Ok b) l' l.
Proof.
  revert l'. induction l as [|a l IH]; simpl; intros l' H.
  - injection H as <-. constructor.
  - destruct (f a) as [b| |] eqn:Hfa; simpl in H; try discriminate.
    destruct (mapM f l) as [bs| |]; simpl in H; try discriminate.
    injection H as <-. constructor; auto.
Qed.

Lemma mapM_Forall_Ok {A B} (f : A → Result B) (l : list A) :
  Forall (λ a, ∃ b, f a = Ok b) l → ∃ l', mapM f l = Ok l'.
Proof.
  induction 1 as [|a l [b Hb] _ [bs Hbs]]; simpl; [by eexists|].
  rewrite Hb. simpl. rewrite Hbs. simpl. by eexists.
Qed.

Lemma blank_Ok value masked :
  blank value = Ok masked →
  ∃ nonEmpty : bool,
    toStringIsNonEmpty value = Ok nonEmpty
    ∧ masked = JStr (if nonEmpty then CREDENTIAL_BLANKING_VALUE else CREDENTIAL_EMPTY_VALUE).
Proof.
  unfold blank. destruct (toStringIsNonEmpty value) as [b| |]; simpl; try discriminate.
  intros H. injection H as <-. by exists b.
Qed.

Lemma blank_isSentinel value masked : blank value = Ok masked → isSentinel masked = true.
Proof. intros (b & _ & ->)%blank_Ok. by destruct b. Qed.

(** What one turn of the loop of [redact] does to an entry. *)
Lemma redactEntry_Ok properties key value entry' :
  redactEntry properties (key, value) = Ok entry' →
  fst entry' = key
  ∧ (if isMasked properties key value then blank value = Ok (snd entry')
     else snd entry' = value).
Proof.
  unfold redactEntry, isMasked, isCrossCuttingSecret, findProperty.
  destruct (String.eqb key "oauthTokenData" || String.eqb key "csrfSecret"); simpl.
  - destruct (blank value) as [m| |]; simpl; try discriminate.
    intros H. by injection H as <-.
  - destruct (find _ properties) as [prop|]; [|intros H; by injection H as <-].
    destruct (np_password prop); simpl; [|intros H; by injection H as <-].
    destruct value as [| | | | s | |]; try discriminate.
    destruct (negb (String.prefix "={{" s) || np_noDataExpression prop).
    + destruct (blank (JStr s)) as [m| |]; simpl; try discriminate.
      intros H. by injection H as <-.
    + intros H. by injection H as <-.
Qed.

Lemma isMasked_isSensitive properties key value :
  isMasked properties key value = true → isSensitive properties key = true.
Proof.
  unfold isMasked, isSensitive.
  destruct (isCrossCuttingSecret key); [done|]. simpl.
  destruct (findProperty properties key); [|done].
  by intros [? _]%andb_true_iff.
Qed.

Lemma redactEntry_conforms properties key value :
  (if isCrossCuttingSecret key then
     match toStringIsNonEmpty value with Ok _ => true | _ => false end
   else
     match findProperty properties key with
     | Some prop => negb (np_password prop) || match value with JStr _ => true | _ => false end
     | None => true
     end) = true →
  ∃ entry', redactEntry properties (key, value) = Ok entry'.
Proof.
  unfold redactEntry, isCrossCuttingSecret, findProperty, blank.
  destruct (String.eqb key "oauthTokenData" || String.eqb key "csrfSecret"); simpl.
  - destruct (toStringIsNonEmpty value); try discriminate. intros _. by eexists.
  - destruct (find _ properties) as [prop|]; [|by eexists].
    destruct (np_password prop); simpl; [|by eexists].
    destruct value as [| | | | s | |]; try discriminate. intros _.
    destruct (negb (String.prefix "={{" s) || np_noDataExpression prop); by eexists.
Qed.

Lemma lookupKey_Forall2 key (Q : JsValue → JsValue → Prop) (redacted data : JObject) :
  Forall2 (λ r p, fst r = fst p ∧ (fst p = key → Q (snd r) (snd p))) redacted data →
  match lookupKey key data with
  | Some value => ∃ value', lookupKey key redacted = Some value' ∧ Q value' value
  | None => lookupKey key redacted = None
  end.
Proof.
  induction 1 as [|[k x] [k' y] r p [Hk Hv] _ IH]; simpl; [done|].
  simpl in Hk, Hv. subst k'.
  destruct (String.eqb_spec k key) as [->|_]; [|done].
  exists x. auto.
Qed.

(** A key of the payload after the loop of [redact]. *)
Lemma redact_lookup properties (data redacted : JObject) key :
  mapM (redactEntry properties) data = Ok redacted →
  match lookupKey key data with
  | Some value =>
      ∃ value', lookupKey key redacted = Some value'
                ∧ (if isMasked properties key value then blank value = Ok value'
                   else value' = value)
  | None => lookupKey key redacted = None
  end.
Proof.
  intros Hred%mapM_Ok_Forall2.
  apply (lookupKey_Forall2 key
           (λ r p, if isMasked properties key p then blank p = Ok r else r = p)).
  eapply Forall2_impl; [exact Hred|]. intros [k' x'] [k x] He.
  apply redactEntry_Ok in He as [Hk Hv]. split; [done|]. simpl. by intros <-.
Qed.

(** C1 (round trip). For a credential whose type resolves to the
    flattened schema [properties], and a payload [data] that conforms
    to it, its password fields holding strings as the cast in
    [redact] expects and its [oauthTokenData] and [csrfSecret]
    holding values that print: [redact] returns a payload
    [redacted], and [unredact redacted data] is [data] again, field
    for field; every field [redact] masked holds a sentinel in
    [redacted] and its saved value after [unredact]; every field
    that is not sensitive is the same in [data], in [redacted] and
    after [unredact]. *)
Theorem redact_unredact_roundtrip
    (getByName : string → option ICredentialType) (fuel : nat)
    (data : JObject) (credential : CredentialsEntity)
    (credType : ICredentialType) (properties : list INodeProperties) :
  getByName (ce_type credential) = Some credType →
  getExtendedProps getByName fuel credType = Ok properties →
  wellFormed (JObj data) = true →
  conformsTo properties data = true →
  ∃ redacted,
    redact getByName fuel data credential = Ok redacted
    ∧ unredact redacted data = data
    ∧ (∀ key value, lookupKey key data = Some value →
                    isMasked properties key value = true →
                    ∃ sentinel, lookupKey key redacted = Some sentinel
                                ∧ isSentinel sentinel = true)
    ∧ (∀ key, isSensitive properties key = true →
              lookupKey key (unredact redacted data) = lookupKey key data)
    ∧ (∀ key, isSensitive properties key = false →
              lookupKey key redacted = lookupKey key data
              ∧ lookupKey key (unredact redacted data) = lookupKey key data).
Proof.
  intros Htype Hprops Hwf Hconf.
  unfold redact. rewrite Htype, Hprops, deepCopyObject_id. simpl.
  assert (∃ redacted, mapM (redactEntry properties) data = Ok redacted)
    as [redacted Hred].
  { apply mapM_Forall_Ok.
    unfold conformsTo in Hconf. rewrite forallb_forall in Hconf.
    apply Forall_forall. intros [k x] Hin. apply redactEntry_conforms.
    apply (Hconf (k, x)). by apply list_elem_of_In. }
  exists redacted. split; [exact Hred|].
  assert (unredact redacted data = data) as Hround.
  { apply unredact_masked; [done|].
    eapply Forall2_impl; [exact (mapM_Ok_Forall2 _ _ _ Hred)|]. intros [k' x'] [k x] He.
    apply redactEntry_Ok in He as [Hk Hv]. split; [done|].
    destruct (isMasked properties k x); [right | by left].
    by eapply blank_isSentinel. }
  rewrite Hround. split; [done|]. split; [|repeat split; try done].
  - intros key value Hkey Hm.
    pose proof (redact_lookup properties data redacted key Hred) as Hlk.
    rewrite Hkey, Hm in Hlk. destruct Hlk as (sentinel & Hs & Hb).
    exists sentinel. split; [done|]. by eapply blank_isSentinel.
  - pose proof (redact_lookup properties data redacted key Hred) as Hlk.
    destruct (lookupKey key data) as [value|]; [|done].
    destruct Hlk as (value' & -> & Hv).
    destruct (isMasked properties key value) eqn:Hm; [|by subst].
    apply isMasked_isSensitive in Hm. congruence.
Qed.

(** C3 (fail-open redaction). When the registry does not know the
    type of the credential, [redact] returns the payload it was
    given, unchanged: no field is masked and nothing is thrown. *)
Theorem redact_fails_open
    (getByName : string → option ICredentialType) (fuel : nat)
    (data : JObject) (credential : CredentialsEntity) :
  getByName (ce_type credential) = None →
  redact getByName fuel data credential = Ok data.
Proof. intros Htype. unfold redact. by rewrite Htype. Qed.

(** C4 (sentinel distinction). A field that [redact] masks, a
    password field of the flattened schema or one of the keys
    [oauthTokenData] and [csrfSecret], holds the blanking sentinel
    afterwards where its value prints as a non-empty string, as every
    non-empty string does, and the empty sentinel where its value is
    the empty string. The two sentinels are different strings. *)
Theorem redact_sentinel_distinction
    (getByName : string → option ICredentialType) (fuel : nat)
    (data redacted : JObject) (credential : CredentialsEntity)
    (credType : ICredentialType) (properties : list INodeProperties)
    (key : string) (value : JsValue) :
  getByName (ce_type credential) = Some credType →
  getExtendedProps getByName fuel credType = Ok properties →
  redact getByName fuel data credential = Ok redacted →
  lookupKey key data = Some value →
  isMasked properties key value = true →
  (toStringIsNonEmpty value = Ok true →
   lookupKey key redacted = Some (JStr CREDENTIAL_BLANKING_VALUE))
  ∧ (∀ s, value = JStr s → s ≠ "" →
          lookupKey key redacted = Some (JStr CREDENTIAL_BLANKING_VALUE))
  ∧ (value = JStr "" → lookupKey key redacted = Some (JStr CREDENTIAL_EMPTY_VALUE))
  ∧ CREDENTIAL_BLANKING_VALUE ≠ CREDENTIAL_EMPTY_VALUE.
Proof.
  intros Htype Hprops Hred Hkey Hm.
  unfold redact in Hred. rewrite Htype, Hprops, deepCopyObject_id in Hred. simpl in Hred.
  pose proof (redact_lookup properties data redacted key Hred) as Hlk.
  rewrite Hkey, Hm in Hlk. destruct Hlk as (value' & -> & Hb).
  apply blank_Ok in Hb as (nonEmpty & Hprint & ->).
  repeat split.
  - intros H. rewrite H in Hprint. by injection Hprint as <-.
  - intros s -> Hs. simpl in Hprint. injection Hprint as <-.
    by destruct (String.eqb_spec s "").
  - intros ->. simpl in Hprint. by injection Hprint as <-.
  - discriminate.
Qed.

(** ** The sharing table *)

Lemma elem_of_allRows (table : SharingTable) sc :
  sc ∈ allRows table ↔
  table !! (sc_credentialsId sc, sc_projectId sc) = Some (sc_role sc).
Proof.
  unfold allRows. rewrite list_elem_of_fmap. split.
  - intros ([[c p] r] & -> & Hin). by apply elem_of_map_to_list in Hin.
  - intros H. exists (sc_credentialsId sc, sc_projectId sc, sc_role sc).
    split; [by destruct sc | by apply elem_of_map_to_list].
Qed.

Lemma rowOf_inj : Inj (=) (=) rowOf.
Proof. intros [[c p] r] [[c' p'] r']. unfold rowOf. simpl. by intros [= -> -> ->]. Qed.

Lemma NoDup_allRows (table : SharingTable) : NoDup (allRows table).
Proof. apply (@NoDup_fmap_2 _ _ rowOf rowOf_inj), NoDup_map_to_list. Qed.

Lemma ownerUniqueb_correct (table : SharingTable) :
  ownerUniqueb table = true → ownerUnique table.
Proof.
  unfold ownerUniqueb. rewrite forallb_forall. intros H c p q Hp Hq.
  set (a := {| sc_credentialsId := c; sc_projectId := p; sc_role := "credential:owner" |}).
  set (b := {| sc_credentialsId := c; sc_projectId := q; sc_role := "credential:owner" |}).
  assert (In a (allRows table)) as Ha by (by apply list_elem_of_In, elem_of_allRows).
  assert (In b (allRows table)) as Hb by (by apply list_elem_of_In, elem_of_allRows).
  specialize (H a Ha). rewrite forallb_forall in H. specialize (H b Hb).
  simpl in H. rewrite !bool_decide_eq_true_2 in H by done. simpl in H.
  by apply bool_decide_eq_true in H.
Qed.

Lemma lookup_makeOwner (credentialIds : list string) (projectId : string)
    (table : SharingTable) (c q : string) :
  makeOwner credentialIds projectId table !! (c, q) =
  if decide (q = projectId ∧ c ∈ credentialIds) then Some "credential:owner"
  else table !! (c, q).
Proof.
  unfold makeOwner. revert table.
  induction credentialIds as [|x ids IH]; intros table; simpl.
  - rewrite decide_False; [done|]. intros [_ H]. by apply elem_of_nil in H.
  - rewrite IH. destruct (decide (q = projectId ∧ c ∈ ids)) as [[-> Hin] | Hn].
    + rewrite decide_True; [done|]. split; [done | by right].
    + destruct (decide ((x, projectId) = (c, q))) as [[= -> ->] | Hne].
      * rewrite lookup_insert_eq, decide_True; [done|]. split; [done | left].
      * rewrite lookup_insert_ne by done. rewrite decide_False; [done|].
        intros [-> [-> | Hin]%elem_of_cons]; [done|]. apply Hn. by split.
Qed.

Lemma lookup_deleteByIds (ids : list string) (projectId : string)
    (table : SharingTable) (c q : string) :
  deleteByIds ids projectId table !! (c, q) =
  if decide (q = projectId ∧ c ∈ ids) then None else table !! (c, q).
Proof.
  unfold deleteByIds. case_decide as H.
  - apply map_lookup_filter_None. right. intros r _. simpl. tauto.
  - destruct (table !! (c, q)) as [r|] eqn:Hr.
    + apply map_lookup_filter_Some. by split.
    + apply map_lookup_filter_None. by left.
Qed.

Lemma insertRows_Ok (rows : list SharedCredentials) (table : SharingTable) :
  NoDup ((λ sc, (sc_credentialsId sc, sc_projectId sc)) <$> rows) →
  (∀ sc, sc ∈ rows → table !! (sc_credentialsId sc, sc_projectId sc) = None) →
  ∃ table',
    insertRows rows table = Ok table'
    ∧ ∀ c q r, table' !! (c, q) = Some r ↔
               table !! (c, q) = Some r
               ∨ {| sc_credentialsId := c; sc_projectId := q; sc_role := r |} ∈ rows.
Proof.
  revert table. induction rows as [|sc rows IH]; intros table Hnd Hfresh; simpl.
  - exists table. split; [done|]. intros c q r. split; [by left|].
    intros [H | H]; [done | by apply elem_of_nil in H].
  - rewrite fmap_cons in Hnd. apply NoDup_cons in Hnd as [Hsc Hnd].
    rewrite (Hfresh sc) by left.
    destruct (IH (<[(sc_credentialsId sc, sc_projectId sc) := sc_role sc]> table)) as
      (table' & Hins & Hlookup); [done | |].
    { intros sc' Hin. rewrite lookup_insert_ne; [apply Hfresh; by right|].
      intros Heq. apply Hsc. rewrite Heq.
      by apply (list_elem_of_fmap_2 (λ sc, (sc_credentialsId sc, sc_projectId sc))). }
    exists table'. split; [done|]. intros c q r. rewrite Hlookup.
    destruct (decide ((sc_credentialsId sc, sc_projectId sc) = (c, q))) as [[= <- <-] | Hne].
    + rewrite lookup_insert_eq, (Hfresh sc) by left. split.
      * intros [[= <-] | Hin]; right; [destruct sc; left | by right].
      * intros [? | [Heq | Hin]%elem_of_cons]; [done | left; by rewrite <- Heq | by right].
    + rewrite lookup_insert_ne by done. split.
      * intros [? | ?]; [by left | right; by right].
      * intros [? | [Heq | Hin]%elem_of_cons]; [by left | | by right].
        exfalso. apply Hne. by rewrite <- Heq.
Qed.

(** ** [transferAll] *)

Lemma elem_of_findByProjectIn (projectIds : list string) (table : SharingTable) sc :
  sc ∈ findByProjectIn projectIds table ↔
  sc_projectId sc ∈ projectIds
  ∧ table !! (sc_credentialsId sc, sc_projectId sc) = Some (sc_role sc).
Proof. unfold findByProjectIn. by rewrite list_elem_of_filter, elem_of_allRows. Qed.

(** The rows of the from-project among the rows loaded. *)
Lemma elem_of_sharedCredentialsOfFromProject (fromProjectId toProjectId : string)
    (table : SharingTable) sc :
  sc ∈ filter (λ sc, sc_projectId sc = fromProjectId)
              (findByProjectIn [fromProjectId; toProjectId] table) ↔
  sc_projectId sc = fromProjectId
  ∧ table !! (sc_credentialsId sc, fromProjectId) = Some (sc_role sc).
Proof.
  rewrite list_elem_of_filter, elem_of_findByProjectIn. split.
  - intros (Hp & _ & H). by rewrite Hp in H.
  - intros [Hp H]. rewrite Hp. repeat split; [left | done].
Qed.

Lemma elem_of_ownedCredentialIds (fromProjectId toProjectId : string)
    (table : SharingTable) c :
  c ∈ sc_credentialsId <$>
        filter (λ sc, sc_role sc = "credential:owner")
               (filter (λ sc, sc_projectId sc = fromProjectId)
                       (findByProjectIn [fromProjectId; toProjectId] table)) ↔
  table !! (c, fromProjectId) = Some "credential:owner".
Proof.
  rewrite list_elem_of_fmap. split.
  - intros (sc & -> & Hin). apply list_elem_of_filter in Hin as [Hrole Hin].
    apply elem_of_sharedCredentialsOfFromProject in Hin as [_ H]. by rewrite Hrole in H.
  - intros H.
    exists {| sc_credentialsId := c; sc_projectId := fromProjectId;
              sc_role := "credential:owner" |}.
    split; [done|]. apply list_elem_of_filter. split; [done|].
    by apply elem_of_sharedCredentialsOfFromProject.
Qed.

Lemma elem_of_sharedCredentialIdsOfTransferee (fromProjectId toProjectId : string)
    (table : SharingTable) c :
  c ∈ sc_credentialsId <$>
        filter (λ sc, sc_projectId sc = toProjectId)
               (findByProjectIn [fromProjectId; toProjectId] table) ↔
  is_Some (table !! (c, toProjectId)).
Proof.
  rewrite list_elem_of_fmap. split.
  - intros (sc & -> & Hin). apply list_elem_of_filter in Hin as [Hp Hin].
    apply elem_of_findByProjectIn in Hin as [_ H]. rewrite Hp in H. by eexists.
  - intros [r H].
    exists {| sc_credentialsId := c; sc_projectId := toProjectId; sc_role := r |}.
    split; [done|]. apply list_elem_of_filter. split; [done|].
    apply elem_of_findByProjectIn. split; [|done]. simpl. right. left.
Qed.

(** [transferAll] always goes through, and this is the table it
    leaves: the owner rows of the from-project are gone, the
    destination owns what the from-project owned, and it has a copy
    of each non-owner row of the from-project it had no row for. *)
Lemma transferAll_lookup (fromProjectId toProjectId : string) (table : SharingTable) :
  ∃ table',
    transferAll fromProjectId toProjectId table = Ok table'
    ∧ ∀ c q r,
        table' !! (c, q) = Some r ↔
        (if decide (q = fromProjectId
                    ∧ table !! (c, fromProjectId) = Some "credential:owner")
         then None
         else if decide (q = toProjectId
                         ∧ table !! (c, fromProjectId) = Some "credential:owner")
              then Some "credential:owner"
              else table !! (c, q)) = Some r
        ∨ (q = toProjectId
           ∧ table !! (c, fromProjectId) = Some r
           ∧ r ≠ "credential:owner"
           ∧ table !! (c, toProjectId) = None).
Proof.
  unfold transferAll.
  set (ofFrom := filter (λ sc, sc_projectId sc = fromProjectId)
                        (findByProjectIn [fromProjectId; toProjectId] table)).
  set (owned := sc_credentialsId <$> filter (λ sc, sc_role sc = "credential:owner") ofFrom).
  set (transferee := sc_credentialsId <$>
         filter (λ sc, sc_projectId sc = toProjectId)
                (findByProjectIn [fromProjectId; toProjectId] table)).
  set (toTransfer := filter (λ sc, sc_role sc ≠ "credential:owner"
                                   ∧ sc_credentialsId sc ∉ transferee) ofFrom).
  set (copy := λ sc, {| sc_credentialsId := sc_credentialsId sc;
                        sc_projectId := toProjectId;
                        sc_role := sc_role sc |}).
  assert (∀ c q,
    deleteByIds owned fromProjectId (makeOwner owned toProjectId table) !! (c, q) =
    if decide (q = fromProjectId ∧ table !! (c, fromProjectId) = Some "credential:owner")
    then None
    else if decide (q = toProjectId ∧ table !! (c, fromProjectId) = Some "credential:owner")
         then Some "credential:owner"
         else table !! (c, q)) as Hmoved.
  { intros c q. rewrite lookup_deleteByIds, lookup_makeOwner.
    pose proof (elem_of_ownedCredentialIds fromProjectId toProjectId table c) as Hown.
    fold ofFrom in Hown. fold owned in Hown.
    rewrite (decide_ext _ (q = fromProjectId
                               ∧ table !! (c, fromProjectId) = Some "credential:owner"))
      by (by rewrite Hown).
    case_decide; [done|].
    by rewrite (decide_ext _ (q = toProjectId
                               ∧ table !! (c, fromProjectId) = Some "credential:owner"))
      by (by rewrite Hown). }
  assert (∀ sc, sc ∈ toTransfer ↔
                sc_projectId sc = fromProjectId
                ∧ table !! (sc_credentialsId sc, fromProjectId) = Some (sc_role sc)
                ∧ sc_role sc ≠ "credential:owner"
                ∧ table !! (sc_credentialsId sc, toProjectId) = None) as HtoTransfer.
  { intros sc. unfold toTransfer. rewrite list_elem_of_filter.
    unfold ofFrom. rewrite elem_of_sharedCredentialsOfFromProject.
    unfold transferee. rewrite elem_of_sharedCredentialIdsOfTransferee.
    rewrite <- eq_None_not_Some. tauto. }
  destruct (insertRows_Ok (copy <$> toTransfer)
              (deleteByIds owned fromProjectId (makeOwner owned toProjectId table)))
    as (table' & Hins & Hlookup).
  - rewrite <- list_fmap_compose.
    apply NoDup_fmap_2_strong; [|apply NoDup_filter, NoDup_filter, NoDup_filter, NoDup_allRows].
    intros a b Ha Hb [= Hc]. apply HtoTransfer in Ha as (Hpa & Hra & _).
    apply HtoTransfer in Hb as (Hpb & Hrb & _).
    rewrite Hc, Hrb in Hra. destruct a, b. simpl in *. congruence.
  - intros sc' (sc & -> & Hin)%list_elem_of_fmap. apply HtoTransfer in Hin as (_ & Hr & Hno & Hto).
    simpl. rewrite Hmoved.
    rewrite decide_False by (intros [_ H]; congruence).
    rewrite decide_False by (intros [_ H]; congruence). done.
  - exists table'. split; [done|]. intros c q r. rewrite Hlookup, Hmoved.
    apply or_iff_compat_l. rewrite list_elem_of_fmap. split.
    + intros (sc & [= -> -> ->] & Hin). apply HtoTransfer in Hin. tauto.
    + intros (-> & Hr & Hno & Hto).
      exists {| sc_credentialsId := c; sc_projectId := fromProjectId; sc_role := r |}.
      split; [done|]. by apply HtoTransfer.
Qed.

Lemma elem_of_ownerRows (projectIds : list string) (table : SharingTable) sc :
  sc ∈ filter (λ sc, sc_role sc = "credential:owner" ∧ sc_projectId sc ∈ projectIds)
              (allRows table) ↔
  sc_role sc = "credential:owner"
  ∧ sc_projectId sc ∈ projectIds
  ∧ table !! (sc_credentialsId sc, sc_projectId sc) = Some "credential:owner".
Proof.
  rewrite list_elem_of_filter, elem_of_allRows. split.
  - intros [[Hr Hp] H]. by rewrite Hr in H.
  - intros (Hr & Hp & H). by rewrite Hr.
Qed.

Lemma elem_of_pair (q a b : string) : q ∈ [a; b] ↔ q = a ∨ q = b.
Proof. rewrite !elem_of_cons, elem_of_nil. tauto. Qed.

(** Where the owner rows are after a transfer between two projects. *)
Lemma transferAll_owner_rows (fromProjectId toProjectId : string)
    (table table' : SharingTable) :
  fromProjectId ≠ toProjectId →
  transferAll fromProjectId toProjectId table = Ok table' →
  ∀ c q, table' !! (c, q) = Some "credential:owner" ↔
         (q = toProjectId ∧ table !! (c, fromProjectId) = Some "credential:owner")
         ∨ (q ≠ fromProjectId ∧ table !! (c, q) = Some "credential:owner").
Proof.
  intros Hne Hok c q.
  destruct (transferAll_lookup fromProjectId toProjectId table) as (t & Hok' & Hlookup).
  rewrite Hok in Hok'. injection Hok' as <-. rewrite Hlookup.
  repeat case_decide; intuition (subst; congruence).
Qed.

(** C2 (ownership invariant), for two distinct projects. On a table
    with at most one owner row per credential, [transferAll] goes
    through, the two projects together hold as many owner rows as
    before, and the table still has at most one owner row per
    credential. *)
Theorem transferAll_owner_invariant (fromProjectId toProjectId : string)
    (table : SharingTable) :
  fromProjectId ≠ toProjectId →
  ownerUnique table →
  ∃ table',
    transferAll fromProjectId toProjectId table = Ok table'
    ∧ ownerCount [fromProjectId; toProjectId] table'
      = ownerCount [fromProjectId; toProjectId] table
    ∧ ownerUnique table'.
Proof.
  intros Hne Huniq.
  destruct (transferAll_lookup fromProjectId toProjectId table) as (table' & Hok & _).
  pose proof (transferAll_owner_rows _ _ _ _ Hne Hok) as Hown.
  exists table'. split; [done|]. split.
  - unfold ownerCount.
    set (copy := λ sc, {| sc_credentialsId := sc_credentialsId sc;
                          sc_projectId := toProjectId;
                          sc_role := sc_role sc |}).
    rewrite <- (length_fmap copy
                  (filter (λ sc, sc_role sc = "credential:owner"
                                 ∧ sc_projectId sc ∈ [fromProjectId; toProjectId])
                          (allRows table))).
    apply Permutation_length.
    apply NoDup_Permutation.
    + apply NoDup_filter, NoDup_allRows.
    + apply NoDup_fmap_2_strong; [|apply NoDup_filter, NoDup_allRows].
      intros a b (Hra & _ & Ha)%elem_of_ownerRows (Hrb & _ & Hb)%elem_of_ownerRows [= Hc Hr].
      rewrite Hc in Ha. pose proof (Huniq _ _ _ Ha Hb) as Hp.
      destruct a, b. simpl in *. congruence.
    + intros [c q r]. rewrite list_elem_of_fmap, elem_of_ownerRows. simpl. split.
      * intros (-> & Hq & H). apply Hown in H as [[-> H] | [Hq' H]].
        -- exists {| sc_credentialsId := c; sc_projectId := fromProjectId;
                     sc_role := "credential:owner" |}.
           split; [done|]. apply elem_of_ownerRows. simpl.
           repeat split; [apply elem_of_pair; by left | done].
        -- exists {| sc_credentialsId := c; sc_projectId := q;
                     sc_role := "credential:owner" |}.
           apply elem_of_pair in Hq as [-> | ->]; [done|].
           split; [done|]. apply elem_of_ownerRows. simpl.
           repeat split; [apply elem_of_pair; by right | done].
      * intros ([c' q' r'] & [= -> -> ->] & (Hr & Hq & H)%elem_of_ownerRows).
        simpl in *. subst r'. repeat split; [apply elem_of_pair; by right|].
        apply Hown. apply elem_of_pair in Hq as [-> | ->].
        -- by left.
        -- right. by split.
  - intros c p q Hp%Hown Hq%Hown.
    destruct Hp as [[-> Hp] | [Hp' Hp]], Hq as [[-> Hq] | [Hq' Hq]]; try done.
    + pose proof (Huniq _ _ _ Hp Hq). congruence.
    + pose proof (Huniq _ _ _ Hp Hq). congruence.
    + by apply (Huniq c).
Qed.

(** C6 (non-owner rows). A non-owner row the destination holds for a
    credential stays as it is unless the from-project owns that
    credential. A non-owner row of the from-project is copied to the
    destination when the destination has no row for the credential,
    and the destination's row stays as it is when it has one. For a
    credential the from-project owns, the destination's row becomes
    the owner row, whatever it was. *)
Theorem transferAll_nonowner_rows (fromProjectId toProjectId : string)
    (table : SharingTable) (c r : string) :
  r ≠ "credential:owner" →
  ∃ table',
    transferAll fromProjectId toProjectId table = Ok table'
    ∧ (table !! (c, toProjectId) = Some r →
       table !! (c, fromProjectId) ≠ Some "credential:owner" →
       table' !! (c, toProjectId) = Some r)
    ∧ (table !! (c, fromProjectId) = Some r →
       (table !! (c, toProjectId) = None → table' !! (c, toProjectId) = Some r)
       ∧ (∀ r0, table !! (c, toProjectId) = Some r0 → table' !! (c, toProjectId) = Some r0))
    ∧ (table !! (c, fromProjectId) = Some "credential:owner" →
       fromProjectId ≠ toProjectId →
       table' !! (c, toProjectId) = Some "credential:owner").
Proof.
  intros Hr.
  destruct (transferAll_lookup fromProjectId toProjectId table) as (table' & Hok & Hlookup).
  exists table'. split; [done|]. split; [|split].
  - intros Hto Hfrom. apply Hlookup. left.
    rewrite !decide_False by (intros [_ ?]; congruence). done.
  - intros Hfrom. split.
    + intros Hto. apply Hlookup. by right.
    + intros r0 Hto. apply Hlookup. left.
      rewrite !decide_False by (intros [_ ?]; congruence). done.
  - intros Hfrom Hne. apply Hlookup. left.
    rewrite decide_False by (intros [? _]; congruence). by rewrite decide_True.
Qed.

(** C8 (what the from-project keeps). After a transfer between two
    distinct projects the from-project holds exactly the non-owner
    rows it held before: each owner row has left it and is an owner
    row of the destination. *)
Theorem transferAll_from_project (fromProjectId toProjectId : string)
    (table : SharingTable) :
  fromProjectId ≠ toProjectId →
  ∃ table',
    transferAll fromProjectId toProjectId table = Ok table'
    ∧ (∀ c r, table' !! (c, fromProjectId) = Some r ↔
              table !! (c, fromProjectId) = Some r ∧ r ≠ "credential:owner")
    ∧ (∀ c, table !! (c, fromProjectId) = Some "credential:owner" →
            table' !! (c, fromProjectId) = None
            ∧ table' !! (c, toProjectId) = Some "credential:owner").
Proof.
  intros Hne.
  destruct (transferAll_lookup fromProjectId toProjectId table) as (table' & Hok & Hlookup).
  exists table'. split; [done|]. split.
  - intros c r. rewrite Hlookup. repeat case_decide; intuition (subst; congruence).
  - intros c Hfrom. split.
    + apply eq_None_not_Some. intros [r Hr]. apply Hlookup in Hr.
      rewrite decide_True in Hr by done. destruct Hr as [? | (? & _)]; congruence.
    + apply Hlookup. left. rewrite decide_False by (intros [? _]; congruence). by rewrite decide_True.
Qed.

(** ** Access resolution *)

(** A workflow whose personal owner has the global read scope
    reaches every personal credential. *)
Lemma findAllCredentialIdsForWorkflow_bypass
    (hasGlobalScope : User → string → bool)
    (findAllPersonalCredentials : list CredentialsEntity)
    (findAllCredentialsForWorkflow : string → list CredentialsEntity)
    (findPersonalOwnerForWorkflow : string → option User)
    (workflowId : string) (owner : User) :
  findPersonalOwnerForWorkflow workflowId = Some owner →
  hasGlobalScope owner "credential:read" = true →
  findAllCredentialIdsForWorkflow hasGlobalScope findAllPersonalCredentials
    findAllCredentialsForWorkflow findPersonalOwnerForWorkflow workflowId
  = findAllPersonalCredentials.
Proof. intros Howner Hscope. unfold findAllCredentialIdsForWorkflow. by rewrite Howner, Hscope. Qed.

(** C5 (intersection). The ids [getCredentialsAUserCanUseInAWorkflow]
    returns are the ids the user reads through [credential:read],
    filtered by what the workflow or project reaches; so they are
    among the former and among the latter. What the workflow or
    project reaches is all personal credentials when its personal
    owner has the global read scope. *)
Theorem usable_credentials_subset
    (hasGlobalScope : User → string → bool)
    (getProjectRelationsForUser : User → list ProjectRelation)
    (findCredentialsForUser : User → list string → list CredentialsEntity)
    (findAllPersonalCredentials : list CredentialsEntity)
    (findAllCredentialsForWorkflow findAllCredentialsForProject
       : string → list CredentialsEntity)
    (findPersonalOwnerForWorkflow findPersonalOwnerForProject : string → option User)
    (combineResourceScopes
       : User → list SharedCredentials → list ProjectRelation → list string)
    (user : User) (options : WorkflowOrProject) :
  let usable :=
    uc_id <$> getCredentialsAUserCanUseInAWorkflow
                hasGlobalScope getProjectRelationsForUser findCredentialsForUser
                findAllPersonalCredentials findAllCredentialsForWorkflow
                findAllCredentialsForProject findPersonalOwnerForWorkflow
                findPersonalOwnerForProject combineResourceScopes user options in
  let readable := ce_id <$> findCredentialsForUser user ["credential:read"] in
  let reachable :=
    match options with
    | OfWorkflow workflowId =>
        ce_id <$> findAllCredentialIdsForWorkflow
                    hasGlobalScope findAllPersonalCredentials
                    findAllCredentialsForWorkflow findPersonalOwnerForWorkflow workflowId
    | OfProject projectId =>
        ce_id <$> findAllCredentialIdsForProject
                    hasGlobalScope findAllPersonalCredentials
                    findAllCredentialsForProject findPersonalOwnerForProject projectId
    end in
  usable = filter (λ credentialId, credentialId ∈ reachable) readable
  ∧ usable ⊆ readable
  ∧ usable ⊆ reachable.
Proof.
  intros usable readable reachable.
  assert (usable = filter (λ credentialId, credentialId ∈ reachable) readable) as Heq.
  { unfold usable, readable, getCredentialsAUserCanUseInAWorkflow.
    fold reachable.
    induction (findCredentialsForUser user ["credential:read"]) as [|c l IH]; [done|].
    rewrite fmap_cons, !filter_cons.
    destruct (decide (ce_id c ∈ reachable)) as [Hin | Hin].
    - rewrite !fmap_cons. by f_equal.
    - exact IH. }
  split; [done|]. rewrite Heq.
  split; intros x Hx%list_elem_of_filter; tauto.
Qed.

(** C9 (personal-project filter). A caller without the global
    [credential:list] scope who filters by a project id that
    resolves to a personal project gets the result of the query with
    the project filter set to the id of the caller's own personal
    project: the id submitted does not reach the query. *)
Theorem getMany_rewrites_personal_project_filter
    (hasGlobalScope : User → string → bool)
    (getProjectRelationsForUser : User → list ProjectRelation)
    (getProject : string → option Project)
    (getPersonalProject : User → option Project)
    (findMany : option ListQueryOptions → option (list string) → list CredentialsEntity)
    (getAllRelationsForCredentials : list string → list SharedCredentials)
    (getCredentialIdsByUserAndRole : list string → list string → list string)
    (addOwnedByAndSharedWith : CredentialsEntity → CredentialsEntity)
    (combineResourceScopes
       : User → list SharedCredentials → list ProjectRelation → list string)
    (user : User) (options : GetManyOptions)
    (projectId : string) (project : Project) :
  hasGlobalScope user "credential:list" = false →
  filterProjectId options = Some projectId →
  getProject projectId = Some project →
  project_type project = personal →
  let rewritten :=
    setFilterProjectId (project_id <$> getPersonalProject user) options in
  getMany hasGlobalScope getProjectRelationsForUser getProject getPersonalProject
          findMany getAllRelationsForCredentials getCredentialIdsByUserAndRole
          addOwnedByAndSharedWith combineResourceScopes user options
  = decorate getAllRelationsForCredentials addOwnedByAndSharedWith combineResourceScopes
             user rewritten
             (match listQueryOptions options with
              | Some lq => match lq_select lq with Some _ => false | None => true end
              | None => true
              end)
             (if truthyString (includeScopes options)
              then getProjectRelationsForUser user else [])
             (findMany (listQueryOptions rewritten)
                       (Some (getCredentialIdsByUserAndRole [user_id user]
                                                            ["credential:read"])))
  ∧ filterProjectId rewritten = project_id <$> getPersonalProject user.
Proof.
  intros Hscope Hfilter Hproject Htype rewritten. split.
  - unfold getMany. rewrite Hscope, andb_false_r.
    by rewrite Hfilter, Hproject, Htype.
  - unfold rewritten, filterProjectId, setFilterProjectId in *. simpl.
    destruct (listQueryOptions options) as [lq|]; [|done]. simpl in *.
    by destruct (lq_filter lq) as [f|].
Qed.

(** C10 ([getOne] and the stored payload). Without a sharing the user
    can see, [getOne] throws [NotFoundError]. With one, what it
    returns carries every column but [data]; its [data] is absent
    when the decrypted payload was not asked for, and is the
    decrypted payload after [redact] when it was, never the stored
    encrypted string. *)
Theorem getOne_never_returns_encrypted_data
    (hasGlobalScope : User → string → bool)
    (findOne : SharingWhere → option SharingWithCredentials)
    (decrypt : CredentialsEntity → Result JObject)
    (getByName : string → option ICredentialType)
    (fuel : nat) (user : User) (credentialId : string) (includeDecryptedData : bool) :
  let outcome :=
    getOne hasGlobalScope findOne decrypt getByName fuel user credentialId
           includeDecryptedData in
  match getSharing hasGlobalScope findOne user credentialId ["credential:read"] with
  | None => outcome = Throw (NotFoundError credentialId)
  | Some s =>
      let rest := withoutData (credentials s) in
      (if includeDecryptedData then
         outcome =
           (decrypted ← decrypt (credentials s) ;
            redacted ← redact getByName fuel decrypted (credentials s) ;
            Ok {| one_data := Some (JObj redacted); one_rest := rest |})
       else outcome = Ok {| one_data := None; one_rest := rest |})
      ∧ match outcome with
        | Ok result =>
            one_rest result = rest
            ∧ one_data result ≠ Some (JStr (ce_data (credentials s)))
        | _ => True
        end
  end.
Proof.
  intros outcome. unfold outcome, getOne.
  destruct (getSharing hasGlobalScope findOne user credentialId ["credential:read"])
    as [s|] eqn:Hs.
  - destruct includeDecryptedData.
    + destruct (decrypt (credentials s)) as [decrypted| |]; simpl; [|done..].
      destruct (redact getByName fuel decrypted (credentials s)) as [redacted| |];
        simpl; [|done..].
      done.
    + done.
  - by destruct includeDecryptedData.
Qed.

(** ** [prepareUpdateData] *)

Lemma lookupKey_setProp key value (o : JObject) key' :
  lookupKey key' (setProp key value o) =
  if String.eqb key key' then Some value else lookupKey key' o.
Proof.
  induction o as [|[k x] o IH]; simpl.
  - by destruct (String.eqb key key').
  - destruct (String.eqb_spec k key) as [-> | Hne]; simpl.
    + by destruct (String.eqb key key').
    + rewrite IH. destruct (String.eqb_spec k key') as [-> | _]; [|done].
      by destruct (String.eqb_spec key key').
Qed.

(** C7 (OAuth token data on update). When the saved payload holds a
    truthy [oauthTokenData], the entity [prepareUpdateData] returns
    for a valid body carries that same [oauthTokenData], whatever
    the body submitted for it; every other key is what [unredact]
    made of the body. *)
Theorem prepareUpdateData_keeps_oauthTokenData
    (validateEntity : UpdateEntity → bool)
    (data : CredentialProperties) (submitted decryptedData : JObject)
    (oauthTokenData : JsValue) :
  lookupKey "oauthTokenData" decryptedData = Some oauthTokenData →
  truthy oauthTokenData = true →
  cp_data data = Some submitted →
  validateEntity {| ue_id := cp_id data;
                    ue_name := cp_name data;
                    ue_type := cp_type data;
                    ue_data := Some (unredact submitted decryptedData) |} = true →
  ∃ updateData merged,
    prepareUpdateData validateEntity data decryptedData = Ok updateData
    ∧ ue_data updateData = Some merged
    ∧ lookupKey "oauthTokenData" merged = Some oauthTokenData
    ∧ ∀ key, key ≠ "oauthTokenData" →
             lookupKey key merged = lookupKey key (unredact submitted decryptedData).
Proof.
  intros Hstored Htruthy Hdata Hvalid.
  unfold prepareUpdateData. rewrite Hdata. simpl. rewrite deepCopyObject_id, Hvalid. simpl.
  unfold readProp. simpl. rewrite Hstored, Htruthy.
  eexists _, _. split; [done|]. split; [done|]. split.
  - by rewrite lookupKey_setProp.
  - intros key Hkey. rewrite lookupKey_setProp.
    by destruct (String.eqb_spec "oauthTokenData" key).
Qed.

(** ** The properties at work *)

(** §8: the caller sends the sentinel back for [clientSecret] and a
    new [scope]. *)
Example unredact_restores_secret_keeps_edit :
  unredact [ ("clientSecret", JStr CREDENTIAL_BLANKING_VALUE); ("scope", JStr "new-scope") ]
           [ ("clientSecret", JStr "sk_live_abc"); ("scope", JStr "old-scope") ]
  = [ ("clientSecret", JStr "sk_live_abc"); ("scope", JStr "new-scope") ].
Proof. reflexivity. Qed.

(** §8: the field the child declares again is no longer a password,
    and keeps the place it had in the parent. *)
Example getExtendedProps_override :
  getExtendedProps inheritingTypes 2
    {| ct_name := "childApi"; ct_extends := Some ["parentApi"];
       ct_properties :=
         [ {| np_name := "z"; np_password := true; np_noDataExpression := false |};
           {| np_name := "x"; np_password := false; np_noDataExpression := false |} ] |}
  = Ok [ {| np_name := "x"; np_password := false; np_noDataExpression := false |};
         {| np_name := "y"; np_password := false; np_noDataExpression := false |};
         {| np_name := "z"; np_password := true; np_noDataExpression := false |} ].
Proof. reflexivity. Qed.

(** §8: after the transfer B owns c1 and c2, its share of c1 is gone,
    and A has no row left. *)
Example transferAll_spec_scenario :
  match transferAll "projectA" "projectB" specTable with
  | Ok table' =>
      rowsOfProject "projectA" table' = []
      ∧ table' !! ("c1", "projectB") = Some "credential:owner"
      ∧ table' !! ("c2", "projectB") = Some "credential:owner"
      ∧ length (rowsOfProject "projectB" table') = 2
  | _ => False
  end.
Proof. vm_compute. repeat split; reflexivity. Qed.

(** C1 on the Outlook credential of §8. *)
Lemma redact_unredact_roundtrip_outlook :
  (exampleTypes (ce_type outlookCredential) = Some outlookType
   ∧ getExtendedProps exampleTypes 2 outlookType = Ok outlookProperties
   ∧ wellFormed (JObj outlookPayload) = true
   ∧ conformsTo outlookProperties outlookPayload = true)
  ∧ ∃ redacted,
      redact exampleTypes 2 outlookPayload outlookCredential = Ok redacted
      ∧ unredact redacted outlookPayload = outlookPayload.
Proof.
  split; [vm_compute; repeat split; reflexivity|].
  destruct (redact_unredact_roundtrip exampleTypes 2 outlookPayload outlookCredential
              outlookType outlookProperties) as (redacted & Hred & Hround & _);
    [vm_compute; reflexivity..|].
  exists redacted. split; [exact Hred | exact Hround].
Defined.

(** C1 stops at a payload whose client secret is a number: the type
    resolves and no key occurs twice, yet [redact] throws at the
    cast and returns nothing to unredact. *)
Lemma redact_roundtrip_stops_at_numeric_secret :
  exampleTypes (ce_type outlookCredential) = Some outlookType
  ∧ getExtendedProps exampleTypes 2 outlookType = Ok outlookProperties
  ∧ wellFormed (JObj numericSecretPayload) = true
  ∧ lookupKey "clientSecret" numericSecretPayload = Some (JNum 42)
  ∧ isSensitive outlookProperties "clientSecret" = true
  ∧ redact exampleTypes 2 numericSecretPayload outlookCredential = Throw TypeError
  ∧ ¬ ∃ redacted, redact exampleTypes 2 numericSecretPayload outlookCredential = Ok redacted.
Proof.
  assert (redact exampleTypes 2 numericSecretPayload outlookCredential = Throw TypeError)
    as Hthrows by (vm_compute; reflexivity).
  split; [reflexivity|]. split; [reflexivity|]. split; [vm_compute; reflexivity|].
  split; [reflexivity|]. split; [reflexivity|]. split; [exact Hthrows|].
  intros [redacted Hred]. rewrite Hthrows in Hred. discriminate.
Qed.

(** C3 on a credential whose type the registry no longer has. *)
Lemma redact_fails_open_orphan :
  exampleTypes (ce_type orphanCredential) = None
  ∧ redact exampleTypes 0 outlookPayload orphanCredential = Ok outlookPayload.
Proof.
  split; [reflexivity|].
  apply (redact_fails_open exampleTypes 0 outlookPayload orphanCredential). reflexivity.
Defined.

(** C4 on the client secret of the Outlook credential. *)
Lemma redact_sentinel_distinction_outlook :
  (exampleTypes (ce_type outlookCredential) = Some outlookType
   ∧ getExtendedProps exampleTypes 2 outlookType = Ok outlookProperties
   ∧ redact exampleTypes 2 outlookPayload outlookCredential = Ok outlookRedacted
   ∧ lookupKey "clientSecret" outlookPayload = Some (JStr "sk_live_abc")
   ∧ isMasked outlookProperties "clientSecret" (JStr "sk_live_abc") = true)
  ∧ lookupKey "clientSecret" outlookRedacted = Some (JStr CREDENTIAL_BLANKING_VALUE)
  ∧ CREDENTIAL_BLANKING_VALUE ≠ CREDENTIAL_EMPTY_VALUE.
Proof.
  split; [vm_compute; repeat split; reflexivity|].
  destruct (redact_sentinel_distinction exampleTypes 2 outlookPayload outlookRedacted
              outlookCredential outlookType outlookProperties
              "clientSecret" (JStr "sk_live_abc"))
    as (Hblank & _ & _ & Hne); [vm_compute; reflexivity..|].
  split; [by apply Hblank | exact Hne].
Defined.

(** C2 does not extend to a transfer of a project to itself: the
    owner rows are written to the project and then deleted from it. *)
Lemma transferAll_same_project_loses_owner :
  ownerUnique ownerOnlyTable
  ∧ match transferAll "projectA" "projectA" ownerOnlyTable with
    | Ok table' =>
        ownerCount ["projectA"; "projectA"] ownerOnlyTable = 1
        ∧ ownerCount ["projectA"; "projectA"] table' = 0
    | _ => False
    end.
Proof.
  split; [apply ownerUniqueb_correct; vm_compute; reflexivity|].
  vm_compute. split; reflexivity.
Qed.

(** C2 on the scenario of §8. *)
Lemma transferAll_owner_invariant_scenario :
  ("projectA" ≠ "projectB" ∧ ownerUnique scenarioTable)
  ∧ ∃ table',
      transferAll "projectA" "projectB" scenarioTable = Ok table'
      ∧ ownerCount ["projectA"; "projectB"] table'
        = ownerCount ["projectA"; "projectB"] scenarioTable
      ∧ ownerUnique table'.
Proof.
  assert (ownerUnique scenarioTable) as Hunique
    by (apply ownerUniqueb_correct; vm_compute; reflexivity).
  split; [split; [discriminate | exact Hunique]|].
  apply (transferAll_owner_invariant "projectA" "projectB" scenarioTable);
    [discriminate | exact Hunique].
Defined.

(** C6: the share project B holds for [c1], which project A owns, is
    replaced by the owner row. *)
Lemma transferAll_overwrites_destination_share :
  match transferAll "projectA" "projectB" scenarioTable with
  | Ok table' =>
      scenarioTable !! ("c1", "projectB") = Some "credential:user"
      ∧ table' !! ("c1", "projectB") = Some "credential:owner"
  | _ => False
  end.
Proof. vm_compute. split; reflexivity. Qed.

(** C6 on the scenario of §8: the share of [c3] is copied to B. *)
Lemma transferAll_nonowner_rows_scenario :
  "credential:user" ≠ "credential:owner"
  ∧ ∃ table',
      transferAll "projectA" "projectB" scenarioTable = Ok table'
      ∧ table' !! ("c3", "projectB") = Some "credential:user".
Proof.
  split; [discriminate|].
  destruct (transferAll_nonowner_rows "projectA" "projectB" scenarioTable
              "c3" "credential:user") as (table' & Hok & _ & Hcopy & _); [discriminate|].
  exists table'. split; [exact Hok|].
  destruct Hcopy as [Hcopy _]; [vm_compute; reflexivity|].
  apply Hcopy. vm_compute; reflexivity.
Defined.

(** C8: a project that only has a credential shared with it keeps
    that row through the transfer. *)
Lemma transferAll_leaves_shares_in_from_project :
  match transferAll "projectA" "projectB" shareeTable with
  | Ok table' =>
      rowsOfProject "projectA" shareeTable
      = [ {| sc_credentialsId := "c3"; sc_projectId := "projectA";
             sc_role := "credential:user" |} ]
      ∧ rowsOfProject "projectA" table'
        = [ {| sc_credentialsId := "c3"; sc_projectId := "projectA";
               sc_role := "credential:user" |} ]
      ∧ rowsOfProject "projectB" table'
        = [ {| sc_credentialsId := "c3"; sc_projectId := "projectB";
               sc_role := "credential:user" |} ]
  | _ => False
  end.
Proof. vm_compute. repeat split; reflexivity. Qed.

(** C8 on the scenario of §8. *)
Lemma transferAll_from_project_scenario :
  "projectA" ≠ "projectB"
  ∧ ∃ table',
      transferAll "projectA" "projectB" scenarioTable = Ok table'
      ∧ table' !! ("c1", "projectA") = None
      ∧ table' !! ("c1", "projectB") = Some "credential:owner"
      ∧ table' !! ("c3", "projectA") = Some "credential:user".
Proof.
  split; [discriminate|].
  destruct (transferAll_from_project "projectA" "projectB" scenarioTable)
    as (table' & Hok & Hkept & Hmoved); [discriminate|].
  exists table'. split; [exact Hok|].
  destruct (Hmoved "c1") as [Hgone Harrived]; [vm_compute; reflexivity|].
  repeat split; [exact Hgone | exact Harrived|].
  apply Hkept. split; [vm_compute; reflexivity | discriminate].
Defined.

(** C9 for a member who filters by another user's personal project. *)
Lemma getMany_rewrites_personal_project_filter_member :
  filterProjectId listOthersProject = Some "p-other"
  ∧ filterProjectId (setFilterProjectId (Some "p-member") listOthersProject)
    = Some "p-member".
Proof.
  split; [reflexivity|].
  apply (getMany_rewrites_personal_project_filter
           (λ _ _, false) (λ _, []) (λ _, Some othersProject) (λ _, Some memberProject)
           (λ _ _, []) (λ _, []) (λ _ _, []) (λ c, c) (λ _ _ _, [])
           member listOthersProject "p-other" othersProject);
    reflexivity.
Defined.

(** C7: saved token data that is the empty string is not carried
    over when the body leaves the key out. *)
Lemma prepareUpdateData_drops_empty_oauthTokenData :
  lookupKey "oauthTokenData" savedWithEmptyToken = Some (JStr "")
  ∧ ∃ updateData merged,
      prepareUpdateData (λ _, true) renameClient savedWithEmptyToken = Ok updateData
      ∧ ue_data updateData = Some merged
      ∧ lookupKey "oauthTokenData" merged = None.
Proof. split; [reflexivity|]. eexists _, _. vm_compute. repeat split; reflexivity. Qed.

(** C7 on an update of the client id alone. *)
Lemma prepareUpdateData_keeps_oauthTokenData_rename :
  (lookupKey "oauthTokenData" savedWithToken
   = Some (JObj [ ("access_token", JStr "eyJ0") ])
   ∧ truthy (JObj [ ("access_token", JStr "eyJ0") ]) = true
   ∧ cp_data renameClient = Some [ ("clientId", JStr "9a2e") ])
  ∧ ∃ updateData merged,
      prepareUpdateData (λ _, true) renameClient savedWithToken = Ok updateData
      ∧ ue_data updateData = Some merged
      ∧ lookupKey "oauthTokenData" merged
        = Some (JObj [ ("access_token", JStr "eyJ0") ]).
Proof.
  split; [vm_compute; repeat split; reflexivity|].
  destruct (prepareUpdateData_keeps_oauthTokenData (λ _, true) renameClient
              [ ("clientId", JStr "9a2e") ] savedWithToken
              (JObj [ ("access_token", JStr "eyJ0") ]))
    as (updateData & merged & Hok & Hdata & Htoken & _); [reflexivity..|].
  by exists updateData, merged.
Defined.

(** * Further properties *)

(** ** Unredaction *)

Lemma unredact_entries (redactedData savedData : JObject) :
  unredact redactedData savedData =
  map (λ entry, (fst entry,
                 restoreEntry (JObj savedData) (fst entry) (snd entry)
                              (unredactRestoreValues (snd entry)))) redactedData.
Proof. unfold unredact. by rewrite deepCopy_id. Qed.

Lemma lookupKey_unredact (redactedData savedData : JObject) key :
  lookupKey key (unredact redactedData savedData) =
  (λ value, restoreEntry (JObj savedData) key value (unredactRestoreValues value))
    <$> lookupKey key redactedData.
Proof.
  rewrite unredact_entries.
  induction redactedData as [|[k x] l IH]; simpl; [done|].
  by destruct (String.eqb_spec k key) as [-> | _].
Qed.

(** X1. [unredact] returns the keys of the incoming payload, in their
    order: a key the caller left out is not brought back from the
    saved payload, and none is dropped. *)
Theorem unredact_preserves_keys (redactedData savedData : JObject) :
  map fst (unredact redactedData savedData) = map fst redactedData.
Proof.
  rewrite unredact_entries. induction redactedData as [|[k x] l IH]; simpl; [done|].
  by rewrite IH.
Qed.

Lemma unredactRestoreValues_no_sentinel v replacement :
  mentionsSentinel v = false → unredactRestoreValues v replacement = v.
Proof.
  revert replacement.
  induction v as [| | | | | items IH | props IH] using JsValue_nested_ind;
    intros replacement Hno; try reflexivity.
  - simpl in Hno. simpl. f_equal.
    assert (∀ i, mapFrom (λ i value,
                   restoreEntry replacement (pretty i) value (unredactRestoreValues value))
                 i items = items) as Hgen; [|apply Hgen].
    induction IH as [|x l Hx _ IHl]; intros i; simpl; [done|].
    simpl in Hno. apply orb_false_iff in Hno as [Hx' Hl']. f_equal; [|by apply IHl].
    unfold restoreEntry.
    assert (isSentinel x = false) as -> by (destruct x; simpl in *; try done;
                                            by apply orb_false_iff in Hx' as [? _]).
    destruct (isObject x && hasProp replacement (pretty i)
              && isObject (readProp replacement (pretty i))); [by apply Hx | done].
  - simpl in Hno. simpl. f_equal.
    induction IH as [|[k x] l Hx _ IHl]; simpl; [done|].
    simpl in Hno, Hx. apply orb_false_iff in Hno as [Hx' Hl']. f_equal; [|by apply IHl].
    f_equal. unfold restoreEntry.
    assert (isSentinel x = false) as -> by (destruct x; simpl in *; try done;
                                            by apply orb_false_iff in Hx' as [? _]).
    destruct (isObject x && hasProp replacement k
              && isObject (readProp replacement k)); [by apply Hx | done].
Qed.

Lemma unredactRestoreValues_plain (redactedData savedData : JObject) :
  mentionsSentinel (JObj redactedData) = false →
  unredact redactedData savedData = redactedData.
Proof.
  intros Hno. unfold unredact. rewrite deepCopy_id.
  by rewrite unredactRestoreValues_no_sentinel.
Qed.

(** X2. A payload that holds no sentinel at any depth comes back from
    [unredact] as it was submitted, whatever was saved. *)
Theorem unredact_without_sentinel (redactedData savedData : JObject) :
  mentionsSentinel (JObj redactedData) = false →
  unredact redactedData savedData = redactedData.
Proof. apply unredactRestoreValues_plain. Qed.

Lemma lookupKey_elem_of key value (props : JObject) :
  lookupKey key props = Some value → (key, value) ∈ props.
Proof.
  induction props as [|[k x] props IH]; simpl; [done|].
  destruct (String.eqb_spec k key) as [-> | _].
  - intros [= ->]. left.
  - intros H. right. by apply IH.
Qed.

Lemma lookupIndex_elem_of key i (items : list JsValue) value :
  lookupIndex key i items = Some value → value ∈ items.
Proof.
  revert i. induction items as [|x items IH]; intros i; simpl; [done|].
  destruct (String.eqb (pretty i) key).
  - intros [= ->]. left.
  - intros H. right. by eapply IH.
Qed.

(** What is read from a well-formed value is well formed. *)
Lemma wellFormed_readProp o key :
  wellFormed o = true → wellFormed (readProp o key) = true.
Proof.
  intros Hwf. unfold readProp.
  destruct (getProp o key) as [v|] eqn:Hget; [|done].
  destruct o as [| | | | | items | props]; try done; simpl in Hget.
  - apply wellFormed_JArr in Hwf. rewrite Forall_forall in Hwf.
    destruct (lookupIndex key 0 items) as [w|] eqn:Hidx.
    + injection Hget as <-. apply Hwf. by eapply lookupIndex_elem_of.
    + destruct (String.eqb key "length"); [by injection Hget as <- | done].
  - apply wellFormed_JObj in Hwf as [_ Hwf]. rewrite Forall_forall in Hwf.
    apply lookupKey_elem_of in Hget. by apply (Hwf (key, v)).
Qed.

Lemma isObject_unredactRestoreValues v replacement :
  isObject (unredactRestoreValues v replacement) = isObject v.
Proof. by destruct v. Qed.

Lemma isSentinel_isObject v : isObject v = true → isSentinel v = false.
Proof. by destruct v. Qed.

(** One entry, restored a second time from the same saved value. *)
Lemma restoreEntry_twice replacement key value :
  wellFormed replacement = true →
  (∀ r, wellFormed r = true →
        unredactRestoreValues (unredactRestoreValues value r) r
        = unredactRestoreValues value r) →
  let once := restoreEntry replacement key value (unredactRestoreValues value) in
  restoreEntry replacement key once (unredactRestoreValues once) = once.
Proof.
  intros Hwf IH once. unfold once. destruct (isSentinel value) eqn:Hs.
  - rewrite (restoreEntry_sentinel replacement key value _ Hs).
    apply restoreEntry_same; [done|]. intros _.
    by apply unredactRestoreValues_same, wellFormed_readProp.
  - destruct (isObject value && hasProp replacement key
              && isObject (readProp replacement key)) eqn:Hcond.
    + assert (restoreEntry replacement key value (unredactRestoreValues value)
              = unredactRestoreValues value (readProp replacement key)) as ->
        by (unfold restoreEntry; by rewrite Hs, Hcond).
      apply andb_true_iff in Hcond as [[Hobj Hhas]%andb_true_iff Hrobj].
      unfold restoreEntry.
      rewrite isSentinel_isObject by (by rewrite isObject_unredactRestoreValues).
      rewrite isObject_unredactRestoreValues, Hobj, Hhas, Hrobj. simpl.
      by apply IH, wellFormed_readProp.
    + assert (restoreEntry replacement key value (unredactRestoreValues value) = value)
        as -> by (unfold restoreEntry; by rewrite Hs, Hcond).
      unfold restoreEntry. by rewrite Hs, Hcond.
Qed.

Lemma mapFrom_mapFrom {A B C} (g : nat → B → C) (h : nat → A → B) i (l : list A) :
  mapFrom g i (mapFrom h i l) = mapFrom (λ j x, g j (h j x)) i l.
Proof. revert i. induction l as [|x l IH]; intros i; simpl; [done|]. by rewrite IH. Qed.

Lemma mapFrom_ext_Forall {A B} (f g : nat → A → B) (P : A → Prop) i (l : list A) :
  Forall P l → (∀ j x, P x → f j x = g j x) → mapFrom f i l = mapFrom g i l.
Proof.
  intros Hl Hfg. revert i. induction Hl as [|x l Hx _ IH]; intros i; simpl; [done|].
  by rewrite Hfg, IH.
Qed.

Lemma unredactRestoreValues_idempotent v replacement :
  wellFormed replacement = true →
  unredactRestoreValues (unredactRestoreValues v replacement) replacement
  = unredactRestoreValues v replacement.
Proof.
  revert replacement.
  induction v as [| | | | | items IH | props IH] using JsValue_nested_ind;
    intros replacement Hwf; try reflexivity.
  - simpl. f_equal. rewrite mapFrom_mapFrom.
    apply (mapFrom_ext_Forall _ _ _ _ _ IH). intros j x Hx.
    by apply (restoreEntry_twice replacement (pretty j) x).
  - simpl. f_equal. rewrite map_map. apply map_ext_Forall.
    eapply Forall_impl; [exact IH|]. intros [k x] Hx. simpl in *. f_equal.
    by apply (restoreEntry_twice replacement k x).
Qed.

(** X3. Against a well-formed saved payload, unredacting the result
    of [unredact] once more changes nothing. *)
Theorem unredact_idempotent (redactedData savedData : JObject) :
  wellFormed (JObj savedData) = true →
  unredact (unredact redactedData savedData) savedData = unredact redactedData savedData.
Proof.
  intros Hwf. unfold unredact. rewrite !deepCopy_id.
  pose proof (unredactRestoreValues_idempotent (JObj redactedData) (JObj savedData) Hwf)
    as Hidem.
  remember (unredactRestoreValues (JObj redactedData) (JObj savedData)) as once eqn:Honce.
  assert (JObj (ownProps once) = once) as -> by (subst once; reflexivity).
  by rewrite Hidem.
Qed.

(** X4. A key that no object inherits, submitted as a sentinel,
    holds the saved value of that key after [unredact], and
    [undefined] where the saved payload has no such key. *)
Theorem unredact_restores_sentinel (redactedData savedData : JObject)
    (key : string) (value : JsValue) :
  inheritsKey key = false →
  lookupKey key redactedData = Some value →
  isSentinel value = true →
  lookupKey key (unredact redactedData savedData)
  = Some (default JUndefined (lookupKey key savedData)).
Proof.
  intros _ Hkey Hs. rewrite lookupKey_unredact, Hkey. simpl.
  by rewrite restoreEntry_sentinel.
Qed.

(** X5. Under a key other than [__proto__], a submitted value that
    is not a sentinel stays as submitted when it is not an object,
    or when the saved payload has no object of its own under that
    key; sentinels inside such an object are not restored. *)
Theorem unredact_leaves_unmatched (redactedData savedData : JObject)
    (key : string) (value : JsValue) :
  key ≠ "__proto__" →
  lookupKey key redactedData = Some value →
  isSentinel value = false →
  isObject value = false
  ∨ lookupKey key savedData = None
  ∨ (∃ saved, lookupKey key savedData = Some saved ∧ isObject saved = false) →
  lookupKey key (unredact redactedData savedData) = Some value.
Proof.
  intros _ Hkey Hs Hcase. rewrite lookupKey_unredact, Hkey. simpl. f_equal.
  unfold restoreEntry, hasProp, readProp. rewrite Hs. simpl.
  destruct Hcase as [-> | [-> | (saved & -> & ->)]]; [done | |].
  - by rewrite andb_false_r.
  - by rewrite andb_false_r.
Qed.

(** ** Redaction, an edit, and unredaction *)

Lemma restoreEntry_masked (saved : JObject) key (x y : JsValue) :
  wellFormed (JObj saved) = true →
  (key, y) ∈ saved →
  x = y ∨ isSentinel x = true →
  restoreEntry (JObj saved) key x (unredactRestoreValues x) = y.
Proof.
  intros Hwf Hin Hx. pose proof Hwf as [Hnd Hall]%wellFormed_JObj.
  pose proof (readProp_key saved key y Hnd Hin) as Hread.
  destruct (isSentinel x) eqn:Hs.
  - by rewrite restoreEntry_sentinel.
  - destruct Hx as [-> | Hx]; [|congruence].
    apply restoreEntry_same; [done|]. intros _.
    apply unredactRestoreValues_same.
    rewrite Forall_forall in Hall. by apply (Hall (key, y)).
Qed.

Lemma restoreEntry_scalar replacement key value descend :
  isSentinel value = false → isObject value = false →
  restoreEntry replacement key value descend = value.
Proof. intros Hs Ho. unfold restoreEntry. by rewrite Hs, Ho. Qed.

(** What [redact] returns holds, key by key, the value it was given
    or a sentinel. *)
Lemma redact_masks (getByName : string → option ICredentialType) (fuel : nat)
    (data redacted : JObject) (credential : CredentialsEntity) :
  redact getByName fuel data credential = Ok redacted →
  Forall2 (λ r p, fst r = fst p ∧ (snd r = snd p ∨ isSentinel (snd r) = true))
          redacted data.
Proof.
  unfold redact. rewrite deepCopyObject_id.
  destruct (getByName (ce_type credential)) as [credType|].
  - destruct (getExtendedProps getByName fuel credType) as [properties| |];
      simpl; try discriminate.
    intros Hred%mapM_Ok_Forall2.
    eapply Forall2_impl; [exact Hred|]. intros [k' x'] [k x] He.
    apply redactEntry_Ok in He as [Hk Hv]. split; [done|].
    destruct (isMasked properties k x); [right | by left].
    by eapply blank_isSentinel.
  - intros [= <-]. apply Forall2_same_length_lookup. split; [done|].
    intros i x y Hx Hy. rewrite Hx in Hy. injection Hy as <-. auto.
Qed.

(** X6. Setting one key of a redacted payload to a value that is
    neither an object nor a sentinel, and unredacting against the
    payload that was redacted, gives that payload with the one key
    set. *)
Theorem redact_edit_unredact (getByName : string → option ICredentialType) (fuel : nat)
    (data redacted : JObject) (credential : CredentialsEntity)
    (key : string) (value : JsValue) :
  wellFormed (JObj data) = true →
  redact getByName fuel data credential = Ok redacted →
  isSentinel value = false →
  isObject value = false →
  unredact (setProp key value redacted) data = setProp key value data.
Proof.
  intros Hwf Hred%redact_masks Hs Ho. rewrite unredact_entries.
  assert (∀ r p,
    Forall2 (λ r p, fst r = fst p ∧ (snd r = snd p ∨ isSentinel (snd r) = true)) r p →
    (∀ e, e ∈ p → e ∈ data) →
    map (λ entry, (fst entry,
                   restoreEntry (JObj data) (fst entry) (snd entry)
                                (unredactRestoreValues (snd entry)))) r = p
    ∧ map (λ entry, (fst entry,
                     restoreEntry (JObj data) (fst entry) (snd entry)
                                  (unredactRestoreValues (snd entry))))
          (setProp key value r) = setProp key value p) as Hgen; [|by apply Hgen].
  induction 1 as [|[k x] [k' y] r p [Hk Hv] _ IH]; intros Hsub; simpl.
  - by rewrite restoreEntry_scalar.
  - simpl in Hk, Hv. subst k'.
    destruct IH as [IHsame IHset]; [intros e He; apply Hsub; by right|].
    assert (restoreEntry (JObj data) k x (unredactRestoreValues x) = y) as Hhead.
    { apply restoreEntry_masked; [done | apply Hsub; left | done]. }
    split; [by rewrite Hhead, IHsame|].
    destruct (String.eqb k key); simpl.
    + by rewrite restoreEntry_scalar, IHsame.
    + by rewrite Hhead, IHset.
Qed.

(** ** Redaction: what it keeps and when it throws *)

(** X7. Whatever [redact] returns has the keys of the payload, in
    their order. *)
Theorem redact_preserves_keys (getByName : string → option ICredentialType) (fuel : nat)
    (data redacted : JObject) (credential : CredentialsEntity) :
  redact getByName fuel data credential = Ok redacted →
  map fst redacted = map fst data.
Proof.
  intros Hred%redact_masks.
  induction Hred as [|[k' x'] [k x] r p [Hk _] _ IH]; simpl in *; [done|].
  by rewrite Hk, IH.
Qed.

(** X8. A password field that holds an expression, a string that
    starts with [={{], is left as it is when the field allows
    expressions. *)
Theorem redact_keeps_expressions
    (getByName : string → option ICredentialType) (fuel : nat)
    (data redacted : JObject) (credential : CredentialsEntity)
    (credType : ICredentialType) (properties : list INodeProperties)
    (key expression : string) (prop : INodeProperties) :
  getByName (ce_type credential) = Some credType →
  getExtendedProps getByName fuel credType = Ok properties →
  redact getByName fuel data credential = Ok redacted →
  isCrossCuttingSecret key = false →
  findProperty properties key = Some prop →
  np_noDataExpression prop = false →
  lookupKey key data = Some (JStr expression) →
  String.prefix "={{" expression = true →
  lookupKey key redacted = Some (JStr expression).
Proof.
  intros Htype Hprops Hred Hcross Hprop Hnde Hkey Hexpr.
  unfold redact in Hred. rewrite Htype, Hprops, deepCopyObject_id in Hred. simpl in Hred.
  pose proof (redact_lookup properties data redacted key Hred) as Hlk.
  rewrite Hkey in Hlk. destruct Hlk as (value' & -> & Hv).
  unfold isMasked in Hv. rewrite Hcross, Hprop, Hexpr, Hnde in Hv. simpl in Hv.
  rewrite andb_false_r in Hv. by subst.
Qed.

Lemma toStringIsNonEmpty_outcome v :
  (∃ b, toStringIsNonEmpty v = Ok b) ∨ toStringIsNonEmpty v = Throw TypeError.
Proof.
  induction v as [| | | | | items IH | props IH] using JsValue_nested_ind;
    simpl; eauto.
  - assert ((∃ bs, mapM (λ x, match x with
                              | JUndefined | JNull => Ok false
                              | _ => toStringIsNonEmpty x
                              end) items = Ok bs)
            ∨ mapM (λ x, match x with
                         | JUndefined | JNull => Ok false
                         | _ => toStringIsNonEmpty x
                         end) items = Throw TypeError) as [[bs ->] | ->];
      [|simpl; eauto | simpl; eauto].
    induction IH as [|x l Hx _ [[bs IHl] | IHl]]; simpl; eauto.
    + rewrite IHl.
      destruct x; simpl; eauto; destruct Hx as [[b Hb] | Hb]; simpl in Hb;
        rewrite ?Hb; simpl; eauto; try discriminate.
    + rewrite IHl.
      destruct x; simpl; eauto; destruct Hx as [[b Hb] | Hb]; simpl in Hb;
        rewrite ?Hb; simpl; eauto; try discriminate.
  - destruct (lookupKey "toString" props); eauto.
Qed.

Lemma redactEntry_outcome properties entry :
  (∃ entry', redactEntry properties entry = Ok entry')
  ∨ redactEntry properties entry = Throw TypeError.
Proof.
  destruct entry as [key value]. unfold redactEntry, blank.
  destruct (String.eqb key "oauthTokenData" || String.eqb key "csrfSecret").
  - destruct (toStringIsNonEmpty_outcome value) as [[b ->] | ->]; simpl; eauto.
  - destruct (find _ properties) as [prop|]; eauto.
    destruct (np_password prop); eauto.
    destruct value as [| | | | s | |]; eauto.
    destruct (negb (String.prefix "={{" s) || np_noDataExpression prop); simpl; eauto.
Qed.

Lemma mapM_Throw {A B} (f : A → Result B) (l : list A) (e : Error) :
  Forall (λ a, (∃ b, f a = Ok b) ∨ f a = Throw e) l →
  Exists (λ a, f a = Throw e) l →
  mapM f l = Throw e.
Proof.
  induction 1 as [|a l Ha _ IH]; intros Hex; [by apply Exists_nil in Hex|].
  simpl. destruct Ha as [[b Hb] | Hb]; rewrite Hb; [|done]. simpl.
  apply Exists_cons in Hex as [Hex | Hex]; [congruence|].
  by rewrite IH.
Qed.

(** X9. Once the type resolves, [redact] throws a [TypeError] for a
    payload in which a password field holds something other than a
    string, or in which [oauthTokenData] or [csrfSecret] is [null]
    or [undefined]. *)
Theorem redact_throws_TypeError
    (getByName : string → option ICredentialType) (fuel : nat)
    (data : JObject) (credential : CredentialsEntity)
    (credType : ICredentialType) (properties : list INodeProperties)
    (key : string) (value : JsValue) :
  getByName (ce_type credential) = Some credType →
  getExtendedProps getByName fuel credType = Ok properties →
  (key, value) ∈ data →
  (isCrossCuttingSecret key = true ∧ (value = JNull ∨ value = JUndefined))
  ∨ (isCrossCuttingSecret key = false
     ∧ ∃ prop, findProperty properties key = Some prop
               ∧ np_password prop = true
               ∧ ∀ s, value ≠ JStr s) →
  redact getByName fuel data credential = Throw TypeError.
Proof.
  intros Htype Hprops Hin Hbad.
  unfold redact. rewrite Htype, Hprops, deepCopyObject_id. simpl.
  apply mapM_Throw.
  - apply Forall_forall. intros entry _. apply redactEntry_outcome.
  - apply Exists_exists. exists (key, value). split; [done|].
    unfold redactEntry. unfold isCrossCuttingSecret, findProperty in Hbad.
    destruct Hbad as [[-> [-> | ->]] | (-> & prop & -> & -> & Hstr)]; try done.
    destruct value; try done. by destruct (Hstr s).
Qed.

(** The loop of [getExtendedProps] over [extends] does not come back
    with a schema when one of the types it extends does not resolve. *)
Lemma getExtendedProps_loop_stuck
    (getByName : string → option ICredentialType)
    (resolve : ICredentialType → Result (list INodeProperties))
    (e : string) (es : list string) (props : list INodeProperties) :
  e ∈ es →
  (∀ r, (extendsType ← getByNameOrThrow getByName e ; resolve extendsType) ≠ Ok r) →
  ∀ r,
    (fix loop (es : list string) (props : list INodeProperties) :=
       match es with
       | [] => Ok props
       | e :: rest =>
           extendsType ← getByNameOrThrow getByName e ;
           extendedProps ← resolve extendsType ;
           loop rest (mergeNodeProperties props extendedProps)
       end) es props ≠ Ok r.
Proof.
  intros Hin Hstuck. revert props. unfold getByNameOrThrow in *.
  induction es as [|e' es IH]; intros props r; [by apply elem_of_nil in Hin|].
  apply elem_of_cons in Hin as [<- | Hin]; simpl.
  - destruct (getByName e) as [t|] eqn:Ht; simpl in *; try done.
    destruct (resolve t) as [p| |] eqn:Hp; simpl; try done.
    exfalso. by apply (Hstuck p).
  - destruct (getByName e') as [t|]; simpl; try done.
    destruct (resolve t) as [p| |]; simpl; try done.
    by apply IH.
Qed.

(** X10. The fail-open path covers the credential's own type only:
    when a type it extends is unknown, [redact] returns no payload,
    and where that type is the only one extended it throws the
    registry's error. *)
Theorem redact_unknown_parent_throws
    (getByName : string → option ICredentialType) (fuel : nat)
    (data : JObject) (credential : CredentialsEntity)
    (credType : ICredentialType) (parent : string) :
  getByName (ce_type credential) = Some credType →
  parent ∈ default [] (ct_extends credType) →
  getByName parent = None →
  (∀ redacted, redact getByName fuel data credential ≠ Ok redacted)
  ∧ (default [] (ct_extends credType) = [parent] →
     redact getByName (S fuel) data credential
     = Throw (UnknownCredentialTypeError parent)).
Proof.
  intros Htype Hparent Hunknown. unfold redact. rewrite Htype. split.
  - intros redacted.
    destruct fuel as [|fuel]; [done|]. simpl.
    match goal with
    | |- context [mbind _ (mbind _ ?loop)] => destruct loop as [p| |] eqn:Hloop
    end; simpl; try done.
    exfalso. revert Hloop.
    apply getExtendedProps_loop_stuck with (e := parent); [done|].
    intros r. unfold getByNameOrThrow. by rewrite Hunknown.
  - intros Hsingle. simpl. rewrite Hsingle. unfold getByNameOrThrow.
    by rewrite Hunknown.
Qed.


(** ** [prepareUpdateData] *)

(** X12. For a valid body, a key other than [oauthTokenData] that
    no object inherits, submitted as a sentinel, holds the saved
    value in what [prepareUpdateData] returns, and [undefined] where
    nothing was saved under it. *)
Theorem prepareUpdateData_restores_sentinel
    (validateEntity : UpdateEntity → bool)
    (data : CredentialProperties) (submitted decryptedData : JObject)
    (key : string) (value : JsValue) :
  cp_data data = Some submitted →
  validateEntity {| ue_id := cp_id data;
                    ue_name := cp_name data;
                    ue_type := cp_type data;
                    ue_data := Some (unredact submitted decryptedData) |} = true →
  key ≠ "oauthTokenData" →
  inheritsKey key = false →
  lookupKey key submitted = Some value →
  isSentinel value = true →
  ∃ updateData merged,
    prepareUpdateData validateEntity data decryptedData = Ok updateData
    ∧ ue_data updateData = Some merged
    ∧ lookupKey key merged = Some (default JUndefined (lookupKey key decryptedData)).
Proof.
  intros Hdata Hvalid Hkey _ Hsub Hs.
  assert (lookupKey key (unredact submitted decryptedData)
          = Some (default JUndefined (lookupKey key decryptedData))) as Hrestored.
  { rewrite lookupKey_unredact, Hsub. simpl. by rewrite restoreEntry_sentinel. }
  unfold prepareUpdateData. rewrite Hdata. simpl. rewrite deepCopyObject_id, Hvalid. simpl.
  destruct (truthy (readProp (JObj decryptedData) "oauthTokenData")).
  - eexists _, _. split; [done|]. split; [done|].
    rewrite lookupKey_setProp. by destruct (String.eqb_spec "oauthTokenData" key).
  - eexists _, _. split; [done|]. by split.
Qed.

(** X13. For a valid body that holds no sentinel, and no truthy
    [oauthTokenData] saved, [prepareUpdateData] returns the body's
    data as submitted. *)
Theorem prepareUpdateData_passes_plain_body
    (validateEntity : UpdateEntity → bool)
    (data : CredentialProperties) (submitted decryptedData : JObject) :
  cp_data data = Some submitted →
  mentionsSentinel (JObj submitted) = false →
  truthy (readProp (JObj decryptedData) "oauthTokenData") = false →
  validateEntity {| ue_id := cp_id data;
                    ue_name := cp_name data;
                    ue_type := cp_type data;
                    ue_data := Some submitted |} = true →
  prepareUpdateData validateEntity data decryptedData
  = Ok {| ue_id := cp_id data;
          ue_name := cp_name data;
          ue_type := cp_type data;
          ue_data := Some submitted |}.
Proof.
  intros Hdata Hplain Htoken Hvalid.
  unfold prepareUpdateData. rewrite Hdata. simpl.
  rewrite deepCopyObject_id, (unredactRestoreValues_plain submitted) by done.
  by rewrite Hvalid, Htoken.
Qed.

(** ** [getOne] *)

(** X14. For a credential whose type the registry does not know,
    [getOne] with the decrypted data included returns the decrypted
    payload as it is: the fail-open path of [redact] reaches the
    caller. *)
Theorem getOne_unknown_type_returns_plaintext
    (hasGlobalScope : User → string → bool)
    (findOne : SharingWhere → option SharingWithCredentials)
    (decrypt : CredentialsEntity → Result JObject)
    (getByName : string → option ICredentialType)
    (fuel : nat) (user : User) (credentialId : string)
    (s : SharingWithCredentials) (decrypted : JObject) :
  getSharing hasGlobalScope findOne user credentialId ["credential:read"] = Some s →
  decrypt (credentials s) = Ok decrypted →
  getByName (ce_type (credentials s)) = None →
  getOne hasGlobalScope findOne decrypt getByName fuel user credentialId true
  = Ok {| one_data := Some (JObj decrypted); one_rest := withoutData (credentials s) |}.
Proof.
  intros Hs Hdecrypt Htype. unfold getOne. rewrite Hs, Hdecrypt. simpl.
  unfold redact. by rewrite Htype.
Qed.

(** X15. When the type resolves, every field of the decrypted payload
    that [redact] masks holds a sentinel in what [getOne] returns. *)
Theorem getOne_masks_sensitive_fields
    (hasGlobalScope : User → string → bool)
    (findOne : SharingWhere → option SharingWithCredentials)
    (decrypt : CredentialsEntity → Result JObject)
    (getByName : string → option ICredentialType)
    (fuel : nat) (user : User) (credentialId : string)
    (s : SharingWithCredentials) (decrypted : JObject)
    (credType : ICredentialType) (properties : list INodeProperties)
    (result : GetOneResult) (key : string) (value : JsValue) :
  getSharing hasGlobalScope findOne user credentialId ["credential:read"] = Some s →
  decrypt (credentials s) = Ok decrypted →
  getByName (ce_type (credentials s)) = Some credType →
  getExtendedProps getByName fuel credType = Ok properties →
  getOne hasGlobalScope findOne decrypt getByName fuel user credentialId true = Ok result →
  lookupKey key decrypted = Some value →
  isMasked properties key value = true →
  ∃ redacted sentinel,
    one_data result = Some (JObj redacted)
    ∧ lookupKey key redacted = Some sentinel
    ∧ isSentinel sentinel = true.
Proof.
  intros Hs Hdecrypt Htype Hprops Hone Hkey Hmasked.
  unfold getOne in Hone. rewrite Hs, Hdecrypt in Hone. simpl in Hone.
  destruct (redact getByName fuel decrypted (credentials s)) as [redacted| |] eqn:Hred;
    simpl in Hone; try discriminate.
  injection Hone as <-. exists redacted.
  unfold redact in Hred. rewrite Htype, Hprops, deepCopyObject_id in Hred. simpl in Hred.
  pose proof (redact_lookup properties decrypted redacted key Hred) as Hlk.
  rewrite Hkey, Hmasked in Hlk. destruct Hlk as (sentinel & Hlookup & Hblank).
  exists sentinel. repeat split; [done|]. by eapply blank_isSentinel.
Qed.

(** ** [getMany] *)

(** X16. For a caller without the global [credential:list] scope,
    [getMany] always queries with the ids the caller reads through
    [credential:read], and with the options as given or with the
    project filter set to the caller's personal project. *)
Theorem getMany_restricted_to_readable_ids
    (hasGlobalScope : User → string → bool)
    (getProjectRelationsForUser : User → list ProjectRelation)
    (getProject : string → option Project)
    (getPersonalProject : User → option Project)
    (findMany : option ListQueryOptions → option (list string) → list CredentialsEntity)
    (getAllRelationsForCredentials : list string → list SharedCredentials)
    (getCredentialIdsByUserAndRole : list string → list string → list string)
    (addOwnedByAndSharedWith : CredentialsEntity → CredentialsEntity)
    (combineResourceScopes
       : User → list SharedCredentials → list ProjectRelation → list string)
    (user : User) (options : GetManyOptions) :
  hasGlobalScope user "credential:list" = false →
  ∃ queried,
    (queried = options
     ∨ queried = setFilterProjectId (project_id <$> getPersonalProject user) options)
    ∧ getMany hasGlobalScope getProjectRelationsForUser getProject getPersonalProject
              findMany getAllRelationsForCredentials getCredentialIdsByUserAndRole
              addOwnedByAndSharedWith combineResourceScopes user options
      = decorate getAllRelationsForCredentials addOwnedByAndSharedWith
                 combineResourceScopes user queried
                 (match listQueryOptions options with
                  | Some lq => match lq_select lq with Some _ => false | None => true end
                  | None => true
                  end)
                 (if truthyString (includeScopes options)
                  then getProjectRelationsForUser user else [])
                 (findMany (listQueryOptions queried)
                           (Some (getCredentialIdsByUserAndRole [user_id user]
                                                                ["credential:read"]))).
Proof.
  intros Hscope. unfold getMany. rewrite Hscope, andb_false_r.
  destruct (filterProjectId options) as [projectId|]; [|by exists options; split; [left|]].
  destruct (getProject projectId) as [project|]; [|by exists options; split; [left|]].
  destruct (project_type project).
  - eexists. split; [by right | done].
  - exists options. split; [by left | done].
Qed.

(** X17. For a caller without the global [credential:list] scope, a
    project filter that does not resolve to a personal project
    reaches the query as given. *)
Theorem getMany_keeps_team_project_filter
    (hasGlobalScope : User → string → bool)
    (getProjectRelationsForUser : User → list ProjectRelation)
    (getProject : string → option Project)
    (getPersonalProject : User → option Project)
    (findMany : option ListQueryOptions → option (list string) → list CredentialsEntity)
    (getAllRelationsForCredentials : list string → list SharedCredentials)
    (getCredentialIdsByUserAndRole : list string → list string → list string)
    (addOwnedByAndSharedWith : CredentialsEntity → CredentialsEntity)
    (combineResourceScopes
       : User → list SharedCredentials → list ProjectRelation → list string)
    (user : User) (options : GetManyOptions) (projectId : string) :
  hasGlobalScope user "credential:list" = false →
  filterProjectId options = Some projectId →
  project_type <$> getProject projectId ≠ Some personal →
  getMany hasGlobalScope getProjectRelationsForUser getProject getPersonalProject
          findMany getAllRelationsForCredentials getCredentialIdsByUserAndRole
          addOwnedByAndSharedWith combineResourceScopes user options
  = decorate getAllRelationsForCredentials addOwnedByAndSharedWith
             combineResourceScopes user options
             (match listQueryOptions options with
              | Some lq => match lq_select lq with Some _ => false | None => true end
              | None => true
              end)
             (if truthyString (includeScopes options)
              then getProjectRelationsForUser user else [])
             (findMany (listQueryOptions options)
                       (Some (getCredentialIdsByUserAndRole [user_id user]
                                                            ["credential:read"]))).
Proof.
  intros Hscope Hfilter Hteam. unfold getMany. rewrite Hscope, andb_false_r, Hfilter.
  destruct (getProject projectId) as [project|]; [|done].
  destruct (project_type project) eqn:Htype; [|done].
  exfalso. apply Hteam. simpl. by rewrite Htype.
Qed.

(** X18. For a caller with the global [credential:list] scope who
    asks for scopes and filters by a project in which the caller is
    the personal owner, the project filter is removed and the query
    is not restricted by ids. *)
Theorem getMany_drops_own_personal_project_filter
    (hasGlobalScope : User → string → bool)
    (getProjectRelationsForUser : User → list ProjectRelation)
    (getProject : string → option Project)
    (getPersonalProject : User → option Project)
    (findMany : option ListQueryOptions → option (list string) → list CredentialsEntity)
    (getAllRelationsForCredentials : list string → list SharedCredentials)
    (getCredentialIdsByUserAndRole : list string → list string → list string)
    (addOwnedByAndSharedWith : CredentialsEntity → CredentialsEntity)
    (combineResourceScopes
       : User → list SharedCredentials → list ProjectRelation → list string)
    (user : User) (options : GetManyOptions) (projectId : string)
    (projectRelation : ProjectRelation) :
  hasGlobalScope user "credential:list" = true →
  truthyString (includeScopes options) = true →
  filterProjectId options = Some projectId →
  projectId ≠ "" →
  find (λ relation, bool_decide (pr_projectId relation = projectId))
       (getProjectRelationsForUser user) = Some projectRelation →
  pr_role projectRelation = "project:personalOwner" →
  let unfiltered := setFilterProjectId None options in
  filterProjectId unfiltered = None
  ∧ getMany hasGlobalScope getProjectRelationsForUser getProject getPersonalProject
            findMany getAllRelationsForCredentials getCredentialIdsByUserAndRole
            addOwnedByAndSharedWith combineResourceScopes user options
    = decorate getAllRelationsForCredentials addOwnedByAndSharedWith
               combineResourceScopes user unfiltered
               (match listQueryOptions options with
                | Some lq => match lq_select lq with Some _ => false | None => true end
                | None => true
                end)
               (getProjectRelationsForUser user)
               (findMany (listQueryOptions unfiltered) None).
Proof.
  intros Hscope Hinclude Hfilter Hne Hfind Hrole unfiltered. split.
  - unfold unfiltered, filterProjectId, setFilterProjectId in *. simpl.
    destruct (listQueryOptions options) as [lq|]; [|done]. simpl in *.
    by destruct (lq_filter lq).
  - unfold getMany. rewrite Hscope, Hinclude, Hfilter. simpl.
    assert (negb (String.eqb projectId "") = true) as ->
      by (by destruct (String.eqb_spec projectId "")).
    simpl.
    assert (find (λ relation, bool_decide (Some (pr_projectId relation) = Some projectId))
                 (getProjectRelationsForUser user) = Some projectRelation) as ->.
    { rewrite <- Hfind. clear. induction (getProjectRelationsForUser user) as [|r l IH];
        simpl; [done|].
      destruct (decide (pr_projectId r = projectId)) as [Heq | Hneq].
      - by rewrite !bool_decide_eq_true_2 by congruence.
      - by rewrite !bool_decide_eq_false_2 by congruence. }
    by rewrite Hrole.
Qed.

(** ** [transferAll]: what it leaves alone, and running it again *)

(** X19. [transferAll] goes through on every table: the rows it
    inserts never meet a primary key that is taken. *)
Theorem transferAll_never_conflicts (fromProjectId toProjectId : string)
    (table : SharingTable) :
  ∃ table', transferAll fromProjectId toProjectId table = Ok table'.
Proof.
  destruct (transferAll_lookup fromProjectId toProjectId table) as (table' & Hok & _).
  by exists table'.
Qed.

(** X20. [transferAll] leaves the rows of every project other than
    the two it is given as they are. *)
Theorem transferAll_other_projects_untouched (fromProjectId toProjectId : string)
    (table table' : SharingTable) (c q : string) :
  transferAll fromProjectId toProjectId table = Ok table' →
  q ≠ fromProjectId →
  q ≠ toProjectId →
  table' !! (c, q) = table !! (c, q).
Proof.
  intros Hok Hfrom Hto.
  destruct (transferAll_lookup fromProjectId toProjectId table) as (t & Hok' & Hlookup).
  rewrite Hok in Hok'. injection Hok' as <-.
  apply option_eq. intros r. rewrite Hlookup.
  rewrite !decide_False by (intros [? _]; congruence).
  split; [intros [? | [? _]]; [done | congruence] | by left].
Qed.

(** After a transfer the from-project owns nothing. *)
Lemma transferAll_from_owns_nothing (fromProjectId toProjectId : string)
    (table table' : SharingTable) (c : string) :
  transferAll fromProjectId toProjectId table = Ok table' →
  table' !! (c, fromProjectId) ≠ Some "credential:owner".
Proof.
  intros Hok.
  destruct (transferAll_lookup fromProjectId toProjectId table) as (t & Hok' & Hlookup).
  rewrite Hok in Hok'. injection Hok' as <-.
  intros H. apply Hlookup in H. revert H.
  repeat case_decide; intuition (subst; congruence).
Qed.

(** X21. Running [transferAll] again on the table it returned changes
    nothing. *)
Theorem transferAll_idempotent (fromProjectId toProjectId : string)
    (table table' : SharingTable) :
  transferAll fromProjectId toProjectId table = Ok table' →
  transferAll fromProjectId toProjectId table' = Ok table'.
Proof.
  intros Hok.
  pose proof (λ c, transferAll_from_owns_nothing _ _ _ _ c Hok) as Hnone.
  destruct (transferAll_lookup fromProjectId toProjectId table) as (t & Hok' & Hfirst).
  rewrite Hok in Hok'. injection Hok' as <-.
  destruct (transferAll_lookup fromProjectId toProjectId table')
    as (table'' & Hok'' & Hsecond).
  rewrite Hok''. f_equal. apply map_eq. intros [c q].
  apply option_eq. intros r. rewrite Hsecond.
  rewrite !decide_False by (intros [_ ?]; by apply (Hnone c)).
  split; [|by left]. intros [? | (-> & Hfrom & Hr & Hto)]; [done|]. exfalso.
  apply eq_None_not_Some in Hto. apply Hto.
  apply Hfirst in Hfrom.
  destruct (table !! (c, toProjectId)) as [r0|] eqn:Hdest.
  - exists r0. apply Hfirst. left. revert Hfrom.
    repeat case_decide; intuition (subst; congruence).
  - exists r. apply Hfirst. right. revert Hfrom.
    repeat case_decide; intuition (subst; congruence).
Qed.

(** ** Creating a credential *)

(** What a successful [save] wrote. *)
Lemma save_single_row
    (persist : UpdateEntity → ICredentialsDb → CredentialsEntity)
    (getPersonalProjectForUserOrFail : string → Error + option Project)
    (getProjectWithScope : User → string → list string → option Project)
    (credential : UpdateEntity) (encryptedData : ICredentialsDb)
    (user : User) (projectId : option string)
    (table table' : SharingTable) (saved : CredentialsEntity) :
  save persist getPersonalProjectForUserOrFail getProjectWithScope
       credential encryptedData user projectId table = inr (saved, table') →
  (∀ q, table !! (ce_id saved, q) = None) →
  ∃ project,
    match projectId with
    | Some p => getProjectWithScope user p ["credential:create"] = Some project
    | None => getPersonalProjectForUserOrFail (user_id user) = inr (Some project)
    end
    ∧ table' = <[(ce_id saved, project_id project) := "credential:owner"]> table
    ∧ ∀ q r, table' !! (ce_id saved, q) = Some r ↔
             q = project_id project ∧ r = "credential:owner".
Proof.
  intros Hsave Hfresh. unfold save in Hsave.
  assert (∃ project,
    match projectId with
    | Some p => getProjectWithScope user p ["credential:create"] = Some project
    | None => getPersonalProjectForUserOrFail (user_id user) = inr (Some project)
    end
    ∧ table' = <[(ce_id saved, project_id project) := "credential:owner"]> table)
    as (project & Hproject & ->).
  { destruct projectId as [p|].
    - destruct (getProjectWithScope user p ["credential:create"]) as [project|];
        [|done]. injection Hsave as <- <-. by exists project.
    - destruct (getPersonalProjectForUserOrFail (user_id user)) as [e | [project|]];
        try done. injection Hsave as <- <-. by exists project. }
  exists project. split; [done|]. split; [done|].
  intros q r. destruct (decide (q = project_id project)) as [-> | Hq].
  - rewrite lookup_insert_eq. split; [by intros [= <-] | by intros [_ ->]].
  - rewrite lookup_insert_ne by congruence. rewrite Hfresh. split; [done | by intros [? _]].
Qed.

(** X22. When [save] succeeds for a credential that had no sharing,
    the credential has exactly one sharing afterwards, the owner
    row of the project asked for (or of the personal project); the
    rows of other credentials are as they were, the credential
    returned carries the encrypted data, and a table with at most
    one owner per credential stays one. *)
Theorem save_creates_single_owner
    (persist : UpdateEntity → ICredentialsDb → CredentialsEntity)
    (getPersonalProjectForUserOrFail : string → Error + option Project)
    (getProjectWithScope : User → string → list string → option Project)
    (credential : UpdateEntity) (encryptedData : ICredentialsDb)
    (user : User) (projectId : option string)
    (table table' : SharingTable) (saved : CredentialsEntity) :
  save persist getPersonalProjectForUserOrFail getProjectWithScope
       credential encryptedData user projectId table = inr (saved, table') →
  (∀ q, table !! (ce_id saved, q) = None) →
  (∃ project,
     match projectId with
     | Some p => getProjectWithScope user p ["credential:create"] = Some project
     | None => getPersonalProjectForUserOrFail (user_id user) = inr (Some project)
     end
     ∧ ∀ q r, table' !! (ce_id saved, q) = Some r ↔
              q = project_id project ∧ r = "credential:owner")
  ∧ (∀ c q, c ≠ ce_id saved → table' !! (c, q) = table !! (c, q))
  ∧ ce_data saved = db_data encryptedData
  ∧ (ownerUnique table → ownerUnique table').
Proof.
  intros Hsave Hfresh. unfold save in Hsave.
  assert (∃ project,
    match projectId with
    | Some p => getProjectWithScope user p ["credential:create"] = Some project
    | None => getPersonalProjectForUserOrFail (user_id user) = inr (Some project)
    end
    ∧ saved = setData (db_data encryptedData) (persist credential encryptedData)
    ∧ table' = <[(ce_id saved, project_id project) := "credential:owner"]> table)
    as (project & Hproject & Hsaved & ->).
  { destruct projectId as [p|].
    - destruct (getProjectWithScope user p ["credential:create"]) as [project|];
        [|done]. injection Hsave as <- <-. by exists project.
    - destruct (getPersonalProjectForUserOrFail (user_id user)) as [e | [project|]];
        try done. injection Hsave as <- <-. by exists project. }
  assert (∀ q r, <[(ce_id saved, project_id project) := "credential:owner"]> table
                   !! (ce_id saved, q) = Some r ↔
                 q = project_id project ∧ r = "credential:owner") as Hrow.
  { intros q r. destruct (decide (q = project_id project)) as [-> | Hq].
    - rewrite lookup_insert_eq. split; [by intros [= <-] | by intros [_ ->]].
    - rewrite lookup_insert_ne by congruence. rewrite Hfresh. split; [done | by intros [? _]]. }
  split; [by exists project|]. split; [|split].
  - intros c q Hc. rewrite lookup_insert_ne; [done | congruence].
  - by rewrite Hsaved.
  - intros Hunique c p q Hp Hq.
    destruct (decide (c = ce_id saved)) as [-> | Hc].
    + apply Hrow in Hp as [-> _]. by apply Hrow in Hq as [-> _].
    + rewrite lookup_insert_ne in Hp by congruence.
      rewrite lookup_insert_ne in Hq by congruence. by apply (Hunique c).
Qed.

Lemma singleton_of_NoDup {A} (l : list A) (a : A) :
  NoDup l → (∀ x, x ∈ l ↔ x = a) → l = [a].
Proof.
  intros Hnd Hall. destruct l as [|x l].
  - exfalso. eapply elem_of_nil. by apply Hall.
  - assert (x = a) as -> by (apply Hall; left).
    apply NoDup_cons in Hnd as [Hx _].
    destruct l as [|y l]; [done|]. exfalso. apply Hx.
    assert (y = a) as -> by (apply Hall; right; left). left.
Qed.

(** X23. When none of the user's projects has a sharing of the
    credential, [getCredentialScopes] combines the scopes from no
    sharing at all. *)
Theorem getCredentialScopes_without_sharing
    (getProjectRelationsForUser : User → list ProjectRelation)
    (combineResourceScopes
       : User → list SharedCredentials → list ProjectRelation → list string)
    (user : User) (credentialId : string) (table : SharingTable) :
  (∀ relation, relation ∈ getProjectRelationsForUser user →
               table !! (credentialId, pr_projectId relation) = None) →
  getCredentialScopes getProjectRelationsForUser combineResourceScopes
                      user credentialId table
  = combineResourceScopes user [] (getProjectRelationsForUser user).
Proof.
  intros Hnone. unfold getCredentialScopes. f_equal.
  apply elem_of_nil_inv. intros sc [[Hp <-] Hin%elem_of_allRows]%list_elem_of_filter.
  apply elem_of_remove_dups, list_elem_of_fmap in Hp as (relation & Hq & Hrel).
  rewrite Hq, (Hnone relation Hrel) in Hin. done.
Qed.

(** X24. When [createCredential] succeeds for a credential that had
    no sharing, the table gains the owner row of the project, and
    the scopes returned are combined from that one row if the user
    belongs to the project, from no row otherwise. *)
Theorem createCredential_scopes_from_owner_row
    (validateEntity : UpdateEntity → bool)
    (encrypt : option string → UpdateEntity → ICredentialsDb)
    (persist : UpdateEntity → ICredentialsDb → CredentialsEntity)
    (getPersonalProjectForUserOrFail : string → Error + option Project)
    (getProjectWithScope : User → string → list string → option Project)
    (getProjectRelationsForUser : User → list ProjectRelation)
    (combineResourceScopes
       : User → list SharedCredentials → list ProjectRelation → list string)
    (credentialsData : CredentialProperties) (user : User)
    (table table' : SharingTable) (created : CredentialsEntity) :
  createCredential validateEntity encrypt persist getPersonalProjectForUserOrFail
                   getProjectWithScope getProjectRelationsForUser combineResourceScopes
                   credentialsData user table = inr (created, table') →
  (∀ q, table !! (ce_id created, q) = None) →
  ∃ project,
    match cp_projectId credentialsData with
    | Some p => getProjectWithScope user p ["credential:create"] = Some project
    | None => getPersonalProjectForUserOrFail (user_id user) = inr (Some project)
    end
    ∧ table' = <[(ce_id created, project_id project) := "credential:owner"]> table
    ∧ ce_scopes created =
        Some (combineResourceScopes user
                (if decide (project_id project
                            ∈ pr_projectId <$> getProjectRelationsForUser user)
                 then [ {| sc_credentialsId := ce_id created;
                           sc_projectId := project_id project;
                           sc_role := "credential:owner" |} ]
                 else [])
                (getProjectRelationsForUser user)).
Proof.
  intros Hcreate Hfresh. unfold createCredential in Hcreate.
  destruct (prepareCreateData validateEntity credentialsData) as [e | newCredential];
    [done|].
  destruct (save _ _ _ _ _ _ _ _) as [e | [saved t]] eqn:Hsave; [done|].
  injection Hcreate as <- <-. simpl in *.
  destruct (save_single_row _ _ _ _ _ _ _ _ _ _ Hsave Hfresh) as (project & Hproject & Ht & Hrow).
  exists project. split; [done|]. split; [done|]. f_equal.
  unfold getCredentialScopes. f_equal.
  case_decide as Hmember.
  - apply singleton_of_NoDup; [apply NoDup_filter, NoDup_allRows|].
    intros [c q r]. rewrite list_elem_of_filter, elem_of_allRows. simpl. split.
    + intros [[_ ->] [-> ->]%Hrow]. done.
    + intros [= -> -> ->]. split; [split; [by apply elem_of_remove_dups | done]|].
      by apply Hrow.
  - apply elem_of_nil_inv.
    intros [c q r] [[Hq ?] Hin%elem_of_allRows]%list_elem_of_filter. simpl in *. subst c.
    apply Hrow in Hin as [-> _]. by apply Hmember, elem_of_remove_dups.
Qed.

(** ** The further properties at work *)

(** X2 on a body that changes the client id alone. *)
Lemma unredact_without_sentinel_rename :
  mentionsSentinel (JObj [ ("clientId", JStr "9a2e") ]) = false
  ∧ unredact [ ("clientId", JStr "9a2e") ] savedWithToken = [ ("clientId", JStr "9a2e") ].
Proof.
  split; [reflexivity|].
  apply (unredact_without_sentinel [ ("clientId", JStr "9a2e") ] savedWithToken).
  reflexivity.
Defined.

(** X3 on the Outlook payload. *)
Lemma unredact_idempotent_outlook :
  wellFormed (JObj outlookPayload) = true
  ∧ unredact (unredact outlookRedacted outlookPayload) outlookPayload
    = unredact outlookRedacted outlookPayload.
Proof.
  split; [vm_compute; reflexivity|].
  apply (unredact_idempotent outlookRedacted outlookPayload). vm_compute; reflexivity.
Defined.

(** X4 on the client secret of the Outlook payload. *)
Lemma unredact_restores_sentinel_outlook :
  (inheritsKey "clientSecret" = false
   ∧ lookupKey "clientSecret" outlookRedacted = Some (JStr CREDENTIAL_BLANKING_VALUE)
   ∧ isSentinel (JStr CREDENTIAL_BLANKING_VALUE) = true)
  ∧ lookupKey "clientSecret" (unredact outlookRedacted outlookPayload)
    = Some (default JUndefined (lookupKey "clientSecret" outlookPayload)).
Proof.
  split; [repeat split; reflexivity|].
  apply (unredact_restores_sentinel outlookRedacted outlookPayload "clientSecret"
           (JStr CREDENTIAL_BLANKING_VALUE)); reflexivity.
Defined.

(** X5 on the scope of the Outlook payload. *)
Lemma unredact_leaves_unmatched_outlook :
  ("scope" ≠ "__proto__"
   ∧ lookupKey "scope" outlookRedacted = Some (JStr "openid offline_access")
   ∧ isSentinel (JStr "openid offline_access") = false
   ∧ isObject (JStr "openid offline_access") = false)
  ∧ lookupKey "scope" (unredact outlookRedacted outlookPayload)
    = Some (JStr "openid offline_access").
Proof.
  split; [split; [discriminate | repeat split; reflexivity]|].
  apply (unredact_leaves_unmatched outlookRedacted outlookPayload "scope"
           (JStr "openid offline_access"));
    [discriminate | reflexivity | reflexivity | left; reflexivity].
Defined.

(** X6: the scenario of §8, a new scope on the redacted Outlook
    payload. *)
Lemma redact_edit_unredact_outlook :
  (wellFormed (JObj outlookPayload) = true
   ∧ redact exampleTypes 2 outlookPayload outlookCredential = Ok outlookRedacted
   ∧ isSentinel (JStr "new-scope") = false
   ∧ isObject (JStr "new-scope") = false)
  ∧ unredact (setProp "scope" (JStr "new-scope") outlookRedacted) outlookPayload
    = setProp "scope" (JStr "new-scope") outlookPayload.
Proof.
  split; [vm_compute; repeat split; reflexivity|].
  apply (redact_edit_unredact exampleTypes 2 outlookPayload outlookRedacted
           outlookCredential "scope" (JStr "new-scope")); vm_compute; reflexivity.
Defined.

(** X7 on the Outlook payload. *)
Lemma redact_preserves_keys_outlook :
  redact exampleTypes 2 outlookPayload outlookCredential = Ok outlookRedacted
  ∧ map fst outlookRedacted = map fst outlookPayload.
Proof.
  split; [vm_compute; reflexivity|].
  apply (redact_preserves_keys exampleTypes 2 outlookPayload outlookRedacted
           outlookCredential). vm_compute; reflexivity.
Defined.

(** X8 on a client secret given as an expression. *)
Lemma redact_keeps_expressions_outlook :
  (exampleTypes (ce_type outlookCredential) = Some outlookType
   ∧ getExtendedProps exampleTypes 2 outlookType = Ok outlookProperties
   ∧ redact exampleTypes 2 expressionPayload outlookCredential = Ok expressionPayload
   ∧ String.prefix "={{" "={{ $env.OUTLOOK_SECRET }}" = true)
  ∧ lookupKey "clientSecret" expressionPayload
    = Some (JStr "={{ $env.OUTLOOK_SECRET }}").
Proof.
  split; [vm_compute; repeat split; reflexivity|].
  apply (redact_keeps_expressions exampleTypes 2 expressionPayload expressionPayload
           outlookCredential outlookType outlookProperties
           "clientSecret" "={{ $env.OUTLOOK_SECRET }}"
           {| np_name := "clientSecret"; np_password := true;
              np_noDataExpression := false |});
    vm_compute; reflexivity.
Defined.

(** X9 on a client secret that is a number. *)
Lemma redact_throws_TypeError_numeric :
  (exampleTypes (ce_type outlookCredential) = Some outlookType
   ∧ getExtendedProps exampleTypes 2 outlookType = Ok outlookProperties
   ∧ ("clientSecret", JNum 42) ∈ numericSecretPayload)
  ∧ redact exampleTypes 2 numericSecretPayload outlookCredential = Throw TypeError.
Proof.
  assert (("clientSecret", JNum 42) ∈ numericSecretPayload) as Hin by (right; left).
  split; [split; [reflexivity | split; [reflexivity | exact Hin]]|].
  apply (redact_throws_TypeError exampleTypes 2 numericSecretPayload outlookCredential
           outlookType outlookProperties "clientSecret" (JNum 42));
    [reflexivity | reflexivity | exact Hin|].
  right. split; [reflexivity|].
  exists {| np_name := "clientSecret"; np_password := true; np_noDataExpression := false |}.
  repeat split; discriminate.
Defined.

(** X10 on a type whose parent is gone. *)
Lemma redact_unknown_parent_throws_child :
  (danglingTypes (ce_type childCredential) = Some danglingChild
   ∧ "goneApi" ∈ default [] (ct_extends danglingChild)
   ∧ danglingTypes "goneApi" = None)
  ∧ redact danglingTypes 1 outlookPayload childCredential
    = Throw (UnknownCredentialTypeError "goneApi").
Proof.
  assert ("goneApi" ∈ default [] (ct_extends danglingChild)) as Hin by left.
  split; [split; [reflexivity | split; [exact Hin | reflexivity]]|].
  destruct (redact_unknown_parent_throws danglingTypes 0 outlookPayload childCredential
              danglingChild "goneApi") as [_ Hthrows];
    [reflexivity | exact Hin | reflexivity|].
  apply Hthrows. reflexivity.
Defined.


(** X12 on an update that sends the client secret back masked. *)
Lemma prepareUpdateData_restores_sentinel_outlook :
  (lookupKey "clientSecret"
     [ ("clientId", JStr "9a2e"); ("clientSecret", JStr CREDENTIAL_BLANKING_VALUE) ]
   = Some (JStr CREDENTIAL_BLANKING_VALUE)
   ∧ "clientSecret" ≠ "oauthTokenData"
   ∧ inheritsKey "clientSecret" = false)
  ∧ ∃ updateData merged,
      prepareUpdateData (λ _, true) resubmitSecret outlookPayload = Ok updateData
      ∧ ue_data updateData = Some merged
      ∧ lookupKey "clientSecret" merged
        = Some (default JUndefined (lookupKey "clientSecret" outlookPayload)).
Proof.
  split; [split; [reflexivity | split; [discriminate | reflexivity]]|].
  apply (prepareUpdateData_restores_sentinel (λ _, true) resubmitSecret
           [ ("clientId", JStr "9a2e"); ("clientSecret", JStr CREDENTIAL_BLANKING_VALUE) ]
           outlookPayload "clientSecret" (JStr CREDENTIAL_BLANKING_VALUE));
    [reflexivity | reflexivity | discriminate | reflexivity | reflexivity | reflexivity].
Defined.

(** X13 on an update of the client id where no token is saved. *)
Lemma prepareUpdateData_passes_plain_body_rename :
  (mentionsSentinel (JObj [ ("clientId", JStr "9a2e") ]) = false
   ∧ truthy (readProp (JObj savedWithEmptyToken) "oauthTokenData") = false)
  ∧ prepareUpdateData (λ _, true) renameClient savedWithEmptyToken
    = Ok {| ue_id := Some "17";
            ue_name := "Outlook account";
            ue_type := "microsoftOutlookOAuth2Api";
            ue_data := Some [ ("clientId", JStr "9a2e") ] |}.
Proof.
  split; [split; reflexivity|].
  apply (prepareUpdateData_passes_plain_body (λ _, true) renameClient
           [ ("clientId", JStr "9a2e") ] savedWithEmptyToken); reflexivity.
Defined.

(** X14 on the credential of a removed community node. *)
Lemma getOne_unknown_type_returns_plaintext_orphan :
  exampleTypes (ce_type (credentials orphanSharing)) = None
  ∧ getOne (λ _ _, true) (λ _, Some orphanSharing) (λ _, Ok outlookPayload)
           exampleTypes 2 member "18" true
    = Ok {| one_data := Some (JObj outlookPayload);
            one_rest := withoutData orphanCredential |}.
Proof.
  split; [reflexivity|].
  apply (getOne_unknown_type_returns_plaintext
           (λ _ _, true) (λ _, Some orphanSharing) (λ _, Ok outlookPayload)
           exampleTypes 2 member "18" orphanSharing outlookPayload); reflexivity.
Defined.

(** X15 on the client secret of the Outlook credential. *)
Lemma getOne_masks_sensitive_fields_outlook :
  (getOne (λ _ _, true) (λ _, Some outlookSharing) (λ _, Ok outlookPayload)
          exampleTypes 2 member "17" true
   = Ok {| one_data := Some (JObj outlookRedacted);
           one_rest := withoutData outlookCredential |}
   ∧ isMasked outlookProperties "clientSecret" (JStr "sk_live_abc") = true)
  ∧ ∃ redacted sentinel,
      Some (JObj outlookRedacted) = Some (JObj redacted)
      ∧ lookupKey "clientSecret" redacted = Some sentinel
      ∧ isSentinel sentinel = true.
Proof.
  split; [split; vm_compute; reflexivity|].
  apply (getOne_masks_sensitive_fields
           (λ _ _, true) (λ _, Some outlookSharing) (λ _, Ok outlookPayload)
           exampleTypes 2 member "17" outlookSharing outlookPayload
           outlookType outlookProperties
           {| one_data := Some (JObj outlookRedacted);
              one_rest := withoutData outlookCredential |}
           "clientSecret" (JStr "sk_live_abc")); vm_compute; reflexivity.
Defined.

(** X16 for a member who lists without a filter. *)
Lemma getMany_restricted_to_readable_ids_member :
  ∃ queried,
    getMany (λ _ _, false) (λ _, []) (λ _, None) (λ _, Some memberProject)
            (λ _ ids, if ids is Some _ then [outlookCredential]
                      else [outlookCredential; orphanCredential])
            (λ _, []) (λ _ _, ["17"]) (λ c, c) (λ _ _ _, [])
            member listTeamProject
    = decorate (λ _, []) (λ c, c) (λ _ _ _, []) member queried true []
               [outlookCredential].
Proof.
  destruct (getMany_restricted_to_readable_ids
              (λ _ _, false) (λ _, []) (λ _, None) (λ _, Some memberProject)
              (λ _ ids, if ids is Some _ then [outlookCredential]
                        else [outlookCredential; orphanCredential])
              (λ _, []) (λ _ _, ["17"]) (λ c, c) (λ _ _ _, [])
              member listTeamProject) as (queried & _ & Hmany); [reflexivity|].
  exists queried. exact Hmany.
Defined.

(** X17 for a member who filters by a team project. *)
Lemma getMany_keeps_team_project_filter_member :
  (filterProjectId listTeamProject = Some "p-team"
   ∧ project_type <$> Some teamProject ≠ Some personal)
  ∧ getMany (λ _ _, false) (λ _, []) (λ _, Some teamProject) (λ _, Some memberProject)
            (λ _ _, [outlookCredential]) (λ _, []) (λ _ _, ["17"]) (λ c, c) (λ _ _ _, [])
            member listTeamProject
    = decorate (λ _, []) (λ c, c) (λ _ _ _, []) member listTeamProject true []
               [outlookCredential].
Proof.
  split; [split; [reflexivity | discriminate]|].
  apply (getMany_keeps_team_project_filter
           (λ _ _, false) (λ _, []) (λ _, Some teamProject) (λ _, Some memberProject)
           (λ _ _, [outlookCredential]) (λ _, []) (λ _ _, ["17"]) (λ c, c) (λ _ _ _, [])
           member listTeamProject "p-team"); [reflexivity | reflexivity | discriminate].
Defined.

(** X18 for an instance owner who filters by the owner's own
    personal project. *)
Lemma getMany_drops_own_personal_project_filter_owner :
  (truthyString (includeScopes listOwnProject) = true
   ∧ filterProjectId listOwnProject = Some "p-owner"
   ∧ pr_role ownerRelation = "project:personalOwner")
  ∧ filterProjectId (setFilterProjectId None listOwnProject) = None.
Proof.
  split; [repeat split; reflexivity|].
  apply (getMany_drops_own_personal_project_filter
           (λ _ _, true) (λ _, [ownerRelation]) (λ _, None) (λ _, None)
           (λ _ _, []) (λ _, []) (λ _ _, []) (λ c, c) (λ _ _ _, [])
           instanceOwner listOwnProject "p-owner" ownerRelation);
    [reflexivity | reflexivity | reflexivity | discriminate | reflexivity | reflexivity].
Defined.

(** X20 on the scenario of §8: project C keeps its row. *)
Lemma transferAll_other_projects_untouched_scenario :
  ("projectC" ≠ "projectA" ∧ "projectC" ≠ "projectB")
  ∧ ∃ table',
      transferAll "projectA" "projectB" scenarioTable = Ok table'
      ∧ table' !! ("c3", "projectC") = scenarioTable !! ("c3", "projectC").
Proof.
  split; [split; discriminate|].
  destruct (transferAll_lookup "projectA" "projectB" scenarioTable) as (table' & Hok & _).
  exists table'. split; [exact Hok|].
  apply (transferAll_other_projects_untouched "projectA" "projectB" scenarioTable table'
           "c3" "projectC"); [exact Hok | discriminate | discriminate].
Defined.

(** X21 on the scenario of §8. *)
Lemma transferAll_idempotent_scenario :
  ∃ table',
    transferAll "projectA" "projectB" scenarioTable = Ok table'
    ∧ transferAll "projectA" "projectB" table' = Ok table'.
Proof.
  destruct (transferAll_lookup "projectA" "projectB" scenarioTable) as (table' & Hok & _).
  exists table'. split; [exact Hok|].
  apply (transferAll_idempotent "projectA" "projectB" scenarioTable table'). exact Hok.
Defined.

(** No sharing of the scenario of §8 is about credential 17. *)
Lemma scenarioTable_without_17 (q : string) : scenarioTable !! ("17", q) = None.
Proof.
  apply not_elem_of_list_to_map_1. simpl.
  rewrite !elem_of_cons, elem_of_nil. intros H.
  repeat (destruct H as [H | H]; [discriminate|]). exact H.
Qed.

(** X22 for a member who saves to the member's personal project. *)
Lemma save_creates_single_owner_member :
  save (λ _ _, outlookCredential) (λ _, inr (Some memberProject)) (λ _ _ _, None)
       newOutlookEntity newOutlookEncrypted member None scenarioTable
  = inr (outlookCredential,
         <[("17", "p-member") := "credential:owner"]> scenarioTable)
  ∧ (ownerUnique scenarioTable →
     ownerUnique (<[("17", "p-member") := "credential:owner"]> scenarioTable)).
Proof.
  split; [reflexivity|].
  apply (save_creates_single_owner
           (λ _ _, outlookCredential) (λ _, inr (Some memberProject)) (λ _ _ _, None)
           newOutlookEntity newOutlookEncrypted member None scenarioTable
           (<[("17", "p-member") := "credential:owner"]> scenarioTable)
           outlookCredential); [reflexivity | exact scenarioTable_without_17].
Defined.

(** X23 for a member whose project has no sharing of credential c2. *)
Lemma getCredentialScopes_without_sharing_member :
  getCredentialScopes (λ _, [memberRelation]) (λ _ shared _, sc_role <$> shared)
                      member "c2" scenarioTable
  = [].
Proof.
  assert (∀ relation, relation ∈ [memberRelation] →
                      scenarioTable !! ("c2", pr_projectId relation) = None) as Hnone.
  { intros relation Hin. apply list_elem_of_singleton in Hin. subst relation.
    vm_compute; reflexivity. }
  exact (getCredentialScopes_without_sharing
           (λ _, [memberRelation]) (λ _ shared _, sc_role <$> shared)
           member "c2" scenarioTable Hnone).
Defined.

(** X24 for a member who creates a credential in the member's
    personal project. *)
Lemma createCredential_scopes_from_owner_row_member :
  ∃ created table',
    createCredential (λ _, true) (λ _ _, newOutlookEncrypted) (λ _ _, outlookCredential)
                     (λ _, inr (Some memberProject)) (λ _ _ _, None)
                     (λ _, [memberRelation]) (λ _ shared _, sc_role <$> shared)
                     newOutlook member scenarioTable
    = inr (created, table')
    ∧ ce_id created = "17"
    ∧ ce_scopes created = Some ["credential:owner"].
Proof.
  set (scopes := getCredentialScopes (λ _, [memberRelation])
                   (λ _ shared _, sc_role <$> shared) member "17"
                   (<[("17", "p-member") := "credential:owner"]> scenarioTable)).
  set (created := {| ce_id := "17";
                     ce_name := "Outlook account";
                     ce_type := "microsoftOutlookOAuth2Api";
                     ce_data := "U2FsdGVkX1+encrypted";
                     ce_isManaged := false;
                     ce_shared := [];
                     ce_scopes := Some scopes |}).
  exists created, (<[("17", "p-member") := "credential:owner"]> scenarioTable).
  assert (createCredential (λ _, true) (λ _ _, newOutlookEncrypted)
            (λ _ _, outlookCredential) (λ _, inr (Some memberProject)) (λ _ _ _, None)
            (λ _, [memberRelation]) (λ _ shared _, sc_role <$> shared)
            newOutlook member scenarioTable
          = inr (created, <[("17", "p-member") := "credential:owner"]> scenarioTable))
    as Hcreate by reflexivity.
  split; [exact Hcreate|]. split; [reflexivity|].
  destruct (createCredential_scopes_from_owner_row _ _ _ _ _ _ _ _ _ _ _ _ Hcreate)
    as (project & Hproject & _ & Hscopes); [exact scenarioTable_without_17|].
  injection Hproject as <-. rewrite Hscopes.
  rewrite decide_True by left. reflexivity.
Defined.
